(** * simengine: the power/load state-propagation engine

    A shallow embedding of
      - [enginecore/state/hardware/asset.py]   (class [Asset]), and
      - [enginecore/state/agent/storcli_emu.py] (class [StorCLIEmulator]: the
        threshold evaluator [_get_state_from_config], the table printer
        [_format_as_table], the command loop [_listen_cmds] and the parts of
        [_get_virtual_drives], [_strcli_ctrl_info] and
        [_strcli_ctrl_cachevault] that compute states and dates)
    together with the properties the specification states about them and
    properties the code itself shows.

    Conventions of the embedding.
      - A Python method that mutates [self] and may raise is a computation in
        the monad [Py S A := S -> S * result A]: the store is threaded
        explicitly and an exception keeps the mutations made before it.
      - Python numbers are duck-typed; the handlers are written once over the
        interface [PyNum] and run at two instances: [Q] (exact arithmetic, as
        Python's int and Fraction) and [float] (IEEE binary64, Python's float).
      - Python dicts keep insertion order and are modelled as association
        lists; a missing key raises [KeyError]. *)

From Stdlib Require Import ZArith QArith Qround Floats List String Ascii DecimalString Bool Lia Lqa.
Import ListNotations.
Open Scope Z_scope.

(** ** Exceptions and the state-and-exception monad *)

Inductive exn : Type :=
| ZeroDivisionError
| ValueError
| OverflowError
| KeyError (k : string)
| AttributeError (attr : string)
| NotImplementedError.

Inductive result (A : Type) : Type :=
| Ok (a : A)
| Raise (e : exn).
Arguments Ok {A} a.
Arguments Raise {A} e.

Definition Py (S A : Type) : Type := S -> S * result A.

Definition ret {S A : Type} (a : A) : Py S A := fun s => (s, Ok a).

Definition bind {S A B : Type} (m : Py S A) (k : A -> Py S B) : Py S B :=
  fun s =>
    match m s with
    | (s', Ok a) => k a s'
    | (s', Raise e) => (s', Raise e)
    end.

Definition lift {S A : Type} (r : result A) : Py S A := fun s => (s, r).

Definition get_self {S : Type} : Py S S := fun s => (s, Ok s).

Definition modify {S : Type} (f : S -> S) : Py S unit := fun s => (f s, Ok tt).

Declare Scope py_scope.
Delimit Scope py_scope with py.
Notation "x <- m ;; k" := (bind m (fun x => k))
  (at level 61, m at next level, right associativity) : py_scope.
Notation "m ;;; k" := (bind m (fun _ => k))
  (at level 61, right associativity) : py_scope.
Open Scope py_scope.

(** ** Python dicts as ordered association lists *)

Definition dict (V : Type) : Type := list (string * V).

Fixpoint dict_get {V : Type} (d : dict V) (k : string) : option V :=
  match d with
  | [] => None
  | (k', v) :: d' => if String.eqb k' k then Some v else dict_get d' k
  end.

(** [d[k]]: the value, or [KeyError]. *)
Definition getitem {V : Type} (d : dict V) (k : string) : result V :=
  match dict_get d k with
  | Some v => Ok v
  | None => Raise (KeyError k)
  end.

Definition keys {V : Type} (d : dict V) : list string := map fst d.

(** ** Numbers *)

(** The operations the handlers apply to voltages and loads. [div] is the
    quotient for a non-zero divisor; [to_int] is Python's [int(v)]. *)
Class PyNum (num : Type) : Type := {
  of_int : Z -> num;
  add : num -> num -> num;
  sub : num -> num -> num;
  mul : num -> num -> num;
  div : num -> num -> num;
  num_eqb : num -> num -> bool;
  num_leb : num -> num -> bool;
  num_ltb : num -> num -> bool;
  to_int : num -> result Z
}.

(** [bool(v)]: a number is falsy exactly when it equals zero. *)
Definition truthy {num : Type} `{PyNum num} (v : num) : bool :=
  negb (num_eqb v (of_int 0)).

(** [a / b]: true division; [ZeroDivisionError] exactly on a zero divisor. *)
Definition truediv {num : Type} `{PyNum num} (a b : num) : result num :=
  if num_eqb b (of_int 0) then Raise ZeroDivisionError else Ok (div a b).

(** Exact arithmetic. [int(q)] truncates towards zero. *)
#[export] Instance PyNum_Q : PyNum Q := {
  of_int := inject_Z;
  add := Qplus;
  sub := Qminus;
  mul := Qmult;
  div := Qdiv;
  num_eqb := Qeq_bool;
  num_leb := Qle_bool;
  num_ltb := fun a b => negb (Qle_bool b a);
  to_int := fun q => Ok (Z.quot (Qnum q) (Zpos (Qden q)))
}.

(** The integer nearest to [z] among binary64 values (ties to even). *)
Definition float_of_Z (z : Z) : float :=
  SF2Prim (binary_normalize prec emax z 0 false).

(** [int(f)] for a float: truncation; NaN and the infinities raise. *)
Definition float_to_int (f : float) : result Z :=
  match Prim2SF f with
  | S754_zero _ => Ok 0
  | S754_finite s m e =>
      let mag := if 0 <=? e then Z.shiftl (Zpos m) e else Z.shiftr (Zpos m) (- e) in
      Ok (if s then - mag else mag)
  | S754_infinity _ => Raise OverflowError
  | S754_nan => Raise ValueError
  end.

(** IEEE binary64 arithmetic, rounding to nearest. *)
#[export] Instance PyNum_float : PyNum float := {
  of_int := float_of_Z;
  add := PrimFloat.add;
  sub := PrimFloat.sub;
  mul := PrimFloat.mul;
  div := PrimFloat.div;
  num_eqb := PrimFloat.eqb;
  num_leb := PrimFloat.leb;
  num_ltb := PrimFloat.ltb;
  to_int := float_to_int
}.

(** ** Data model *)

(** [state.status]: the integers 0 and 1 in the source. *)
Inductive PowerStatus : Type := Down | Up.

Definition status_int (s : PowerStatus) : Z :=
  match s with Down => 0 | Up => 1 end.

(** [bool(status)]. *)
Definition is_up (s : PowerStatus) : bool :=
  match s with Down => false | Up => true end.

(** The event classes of [asset_events] the asset subscribes to or records. *)
Inductive event_class : Type :=
| ButtonPowerDownPressed
| ButtonPowerUpPressed
| ChildAssetLoadIncreased
| ChildAssetPowerUp
| ChildAssetLoadDecreased
| ChildAssetPowerDown
| ChildLoadUpEvent
| ChildLoadDownEvent
| InputVoltageUpEvent
| InputVoltageDownEvent.

Definition event_class_eqb (a b : event_class) : bool :=
  match a, b with
  | ButtonPowerDownPressed, ButtonPowerDownPressed
  | ButtonPowerUpPressed, ButtonPowerUpPressed
  | ChildAssetLoadIncreased, ChildAssetLoadIncreased
  | ChildAssetPowerUp, ChildAssetPowerUp
  | ChildAssetLoadDecreased, ChildAssetLoadDecreased
  | ChildAssetPowerDown, ChildAssetPowerDown
  | ChildLoadUpEvent, ChildLoadUpEvent
  | ChildLoadDownEvent, ChildLoadDownEvent
  | InputVoltageUpEvent, InputVoltageUpEvent
  | InputVoltageDownEvent, InputVoltageDownEvent => true
  | _, _ => false
  end.

(** A pair of values of a quantity in flux ([asset_event.out_volt.old],
    [asset_event.out_volt.new], ...). *)
Record EventDataPair (A : Type) : Type := mkPair { old : A; new : A }.
Arguments mkPair {A} old new.
Arguments old {A} e.
Arguments new {A} e.

Section Engine.

Context {num : Type} `{PyNum num}.

(** Modelled from the spec: the state manager class behind [self.state] is not
    among the source files. Section 3 of the specification gives its
    attributes (key, asset type, input voltage, load, power status, boot time)
    and the two static per-type properties [min_voltage] and
    [power_consumption]. *)
Record AssetState : Type := mkAssetState {
  key : Z;
  asset_type : string;
  input_voltage : num;
  load : num;
  status : PowerStatus;
  boot_time : Z;
  min_voltage : num;
  power_consumption : num
}.

(** Modelled from the spec: the primitive mutators of the state manager, each
    writing the one attribute it names. *)
Definition update_input_voltage (v : num) (s : AssetState) : AssetState :=
  mkAssetState (key s) (asset_type s) v (load s) (status s) (boot_time s)
               (min_voltage s) (power_consumption s).

Definition update_load (l : num) (s : AssetState) : AssetState :=
  mkAssetState (key s) (asset_type s) (input_voltage s) l (status s) (boot_time s)
               (min_voltage s) (power_consumption s).

(** [now] is the reading of [time.time()] at the call. *)
Definition reset_boot_time (now : Z) (s : AssetState) : AssetState :=
  mkAssetState (key s) (asset_type s) (input_voltage s) (load s) (status s) now
               (min_voltage s) (power_consumption s).

Definition set_status (p : PowerStatus) (s : AssetState) : AssetState :=
  mkAssetState (key s) (asset_type s) (input_voltage s) (load s) p (boot_time s)
               (min_voltage s) (power_consumption s).

(** Modelled from the spec: [state.power_up()] sets the status to Up and
    resets the boot time; [state.power_off()] and [state.shut_down()] set it
    to Down. Each returns the status it leaves. *)
Definition state_power_up (now : Z) (s : AssetState) : AssetState * PowerStatus :=
  (reset_boot_time now (set_status Up s), Up).

Definition state_power_off (s : AssetState) : AssetState * PowerStatus :=
  (set_status Down s, Down).

Definition state_shut_down (s : AssetState) : AssetState * PowerStatus :=
  (set_status Down s, Down).

Definition min_voltage_prop (s : AssetState) : num := min_voltage s.

(** [class Asset(Component)]: the state manager and the recorded reason. *)
Record Asset : Type := mkAsset {
  _state : AssetState;
  _state_reason : event_class
}.

(** The [state] property. *)
Definition state (self : Asset) : AssetState := _state self.

(** The [state_reason] property and its setter. *)
Definition state_reason (self : Asset) : event_class := _state_reason self.

Definition set_state_reason (value : event_class) : Py Asset unit :=
  modify (fun self => mkAsset (_state self) value).

(** A call [self.state.m(...)] of a mutator [m]. *)
Definition on_state {A : Type} (m : AssetState -> AssetState * A) : Py Asset A :=
  fun self =>
    let (s', a) := m (_state self) in
    (mkAsset s' (_state_reason self), Ok a).

Definition on_state_ (m : AssetState -> AssetState) : Py Asset unit :=
  on_state (fun s => (m s, tt)).

(** [Asset.__init__(self, state)]. *)
Definition Asset_init (now : Z) (st : AssetState) : Asset :=
  let self := mkAsset st ButtonPowerUpPressed in
  fst ((on_state_ (update_input_voltage (of_int 0)) ;;;
        on_state_ (reset_boot_time now) ;;;
        on_state_ (update_load (of_int 0))) self).

(** [Asset.power_state_caused_by_user]. *)
Definition power_state_caused_by_user (self : Asset) : bool :=
  event_class_eqb (state_reason self) ButtonPowerDownPressed
  || event_class_eqb (state_reason self) ButtonPowerUpPressed.

(** [event_results.LoadEventResult]. *)
Record LoadEventResult : Type := mkLoadEventResult {
  old_load : num;
  new_load : num;
  asset_key : Z
}.

(** [event_results.PowerEventResult]; [power_off] passes no [load_change]. *)
Record PowerEventResult : Type := mkPowerEventResult {
  pr_asset_key : Z;
  pr_asset_type : string;
  pr_old_state : PowerStatus;
  pr_new_state : PowerStatus;
  pr_load_change : option Z
}.

(** The power event an asset builds for its children: the state, output
    voltage and load pairs the handler reads and writes. *)
Record AssetPowerEvent : Type := mkAssetPowerEvent {
  ev_state : EventDataPair (option PowerStatus);
  out_volt : EventDataPair num;
  ev_load : EventDataPair (option num)
}.

(** Keyword arguments of a handler call. *)
Definition kwargs : Type := dict num.

(** An inbound event: its class, the keyword arguments it was created with
    (the bus passes them to every handler) and, when it is a voltage event,
    the method [get_next_power_event(target_asset)]. *)
Record Event : Type := mkEvent {
  name : event_class;
  ev_kwargs : kwargs;
  get_next_power_event : option (Asset -> AssetPowerEvent)
}.

(** [event.get_next_power_event(target)]; an event without the method raises. *)
Definition call_get_next_power_event (event : Event) (target : Asset)
  : result AssetPowerEvent :=
  match get_next_power_event event with
  | Some method => Ok (method target)
  | None => Raise (AttributeError "get_next_power_event")
  end.

(** ** Power operations *)

(** [Asset.power_up]. *)
Definition power_up (now : Z) : Py Asset PowerEventResult :=
  self <- get_self ;;
  let old_state := status (state self) in
  new_state <- on_state (state_power_up now) ;;
  ret (mkPowerEventResult (key (state self)) (asset_type (state self))
                          old_state new_state (Some 0)).

(** [Asset.shut_down]. *)
Definition shut_down : Py Asset PowerEventResult :=
  self <- get_self ;;
  let old_state := status (state self) in
  new_state <- on_state state_shut_down ;;
  ret (mkPowerEventResult (key (state self)) (asset_type (state self))
                          old_state new_state (Some 0)).

(** [Asset.power_off]. *)
Definition power_off : Py Asset PowerEventResult :=
  self <- get_self ;;
  let old_state := status (state self) in
  new_state <- on_state state_power_off ;;
  ret (mkPowerEventResult (key (state self)) (asset_type (state self))
                          old_state new_state None).

(** ** Load handlers *)

(** [Asset._update_load(load_change, arithmetic_op)]. *)
Definition _update_load (load_change : num) (arithmetic_op : num -> num -> num)
  : Py Asset LoadEventResult :=
  self <- get_self ;;
  let old_load := load (state self) in
  let new_load := arithmetic_op old_load load_change in
  on_state_ (update_load new_load) ;;;
  ret (mkLoadEventResult old_load new_load (key (state self))).

(** [@handler("ChildAssetLoadIncreased", "ChildAssetPowerUp")]. *)
Definition on_load_increase (event : Event) (kw : kwargs) : Py Asset LoadEventResult :=
  increased_by <- lift (getitem kw "child_load") ;;
  _update_load increased_by (fun old change => add old change).

(** [@handler("ChildAssetLoadDecreased", "ChildAssetPowerDown")]. *)
Definition on_load_decrease (event : Event) (kw : kwargs) : Py Asset LoadEventResult :=
  decreased_by <- lift (getitem kw "child_load") ;;
  _update_load decreased_by (fun old change => sub old change).

(** [@handler("ButtonPowerDownPressed")] and [@handler("ButtonPowerUpPressed")]. *)
Definition on_btn_power_down (event : Event) : Py Asset unit :=
  set_state_reason ButtonPowerDownPressed.

Definition on_btn_power_up (event : Event) : Py Asset unit :=
  set_state_reason ButtonPowerUpPressed.

(** ** Voltage handlers *)

(** Writes to the fields of the event under construction. *)
Definition set_state_old (v : option PowerStatus) (e : AssetPowerEvent) : AssetPowerEvent :=
  mkAssetPowerEvent (mkPair v (new (ev_state e))) (out_volt e) (ev_load e).

Definition set_state_new (v : option PowerStatus) (e : AssetPowerEvent) : AssetPowerEvent :=
  mkAssetPowerEvent (mkPair (old (ev_state e)) v) (out_volt e) (ev_load e).

Definition set_out_volt_old (v : num) (e : AssetPowerEvent) : AssetPowerEvent :=
  mkAssetPowerEvent (ev_state e) (mkPair v (new (out_volt e))) (ev_load e).

Definition set_out_volt_new (v : num) (e : AssetPowerEvent) : AssetPowerEvent :=
  mkAssetPowerEvent (ev_state e) (mkPair (old (out_volt e)) v) (ev_load e).

Definition set_load_old (v : option num) (e : AssetPowerEvent) : AssetPowerEvent :=
  mkAssetPowerEvent (ev_state e) (out_volt e) (mkPair v (new (ev_load e))).

Definition set_load_new (v : option num) (e : AssetPowerEvent) : AssetPowerEvent :=
  mkAssetPowerEvent (ev_state e) (out_volt e) (mkPair (old (ev_load e)) v).

(** [calc_load = lambda v: self.state.power_consumption / v if v else 0]. *)
Definition calc_load (self : Asset) (v : num) : result num :=
  if truthy v then truediv (power_consumption (state self)) v else Ok (of_int 0).

(** The branch of [_process_parent_volt_e] that chooses [power_action]. *)
Inductive PowerAction : Type := ActPowerOff | ActPowerUp.

Definition choose_power_action (new_out_volt min_volt : num) (state_old : PowerStatus)
  : option PowerAction :=
  if num_leb new_out_volt min_volt && is_up state_old then Some ActPowerOff
  else if num_ltb min_volt new_out_volt && negb (is_up state_old) then Some ActPowerUp
  else None.

Definition run_power_action (now : Z) (a : PowerAction) : Py Asset PowerStatus :=
  match a with
  | ActPowerOff => on_state state_power_off
  | ActPowerUp => on_state (state_power_up now)
  end.

(** The block under [if power_action:]: the action runs, then the output
    voltages of the event are re-set. [state_old] is the status stored in
    [asset_event.state.old]. *)
Definition reset_out_volt (now : Z) (power_action : option PowerAction)
  (state_old : PowerStatus) (asset_event : AssetPowerEvent)
  : Py Asset AssetPowerEvent :=
  let old_out_volt := old (out_volt asset_event) in
  let new_out_volt := new (out_volt asset_event) in
  match power_action with
  | Some action =>
      state_new <- run_power_action now action ;;
      let e1 := set_state_new (Some state_new) asset_event in
      let e2 := set_out_volt_old (mul old_out_volt (of_int (status_int state_old))) e1 in
      i <- lift (to_int old_out_volt) ;;
      ret (set_out_volt_new (mul new_out_volt (of_int (Z.lxor i 1))) e2)
  | None => ret asset_event
  end.

(** The load bookkeeping that ends [_process_parent_volt_e]: both load
    components are computed from the output voltages of the event, and the
    stored load is updated by their difference when they differ. *)
Definition account_load (asset_event : AssetPowerEvent) : Py Asset AssetPowerEvent :=
  cur <- get_self ;;
  old_l <- lift (calc_load cur (old (out_volt asset_event))) ;;
  new_l <- lift (calc_load cur (new (out_volt asset_event))) ;;
  let asset_event := set_load_old (Some old_l) (set_load_new (Some new_l) asset_event) in
  (if negb (num_eqb new_l old_l)
   then on_state_ (update_load (add (sub (load (state cur)) old_l) new_l))
   else ret tt) ;;;
  ret asset_event.

(** [Asset._process_parent_volt_e(event)]. *)
Definition _process_parent_volt_e (now : Z) (event : Event) : Py Asset AssetPowerEvent :=
  self <- get_self ;;
  asset_event <- lift (call_get_next_power_event event self) ;;
  let state_old := status (state self) in
  let asset_event := set_state_old (Some state_old) asset_event in
  let min_volt := min_voltage_prop (state self) in
  let power_action :=
    choose_power_action (new (out_volt asset_event)) min_volt state_old in
  asset_event <- reset_out_volt now power_action state_old asset_event ;;
  account_load asset_event.

(** [@handler("InputVoltageUpEvent", "InputVoltageDownEvent", priority=-1)]. *)
Definition detect_input_voltage (event : Event) (kw : kwargs) : Py Asset unit :=
  v <- lift (getitem kw "new_in_volt") ;;
  on_state_ (update_input_voltage v).

(** [@handler("InputVoltageUpEvent")]. *)
Definition on_parent_volt_up (now : Z) (event : Event) (kw : kwargs)
  : Py Asset AssetPowerEvent :=
  _process_parent_volt_e now event.

(** [@handler("InputVoltageDownEvent")]. *)
Definition on_parent_volt_down (now : Z) (event : Event) (kw : kwargs)
  : Py Asset AssetPowerEvent :=
  _process_parent_volt_e now event.

(** The extension points left to concrete assets. *)
Definition on_power_up_request_received (event : Event) (kw : kwargs) : Py Asset unit :=
  lift (Raise NotImplementedError).

Definition on_power_off_request_received (event : Event) (kw : kwargs) : Py Asset unit :=
  lift (Raise NotImplementedError).

(** ** Events and their delivery *)

(** Modelled from the spec: the voltage event classes of [asset_events] are
    not among the source files. A voltage event carries [new_in_volt]; the
    power event it builds for the target asset starts from the input voltage
    the target has stored and the voltage the event brings, with the state
    and load pairs still unset. *)
Definition InputVoltageEvent (cls : event_class) (new_in_volt : num) : Event :=
  mkEvent cls [("new_in_volt"%string, new_in_volt)]
    (Some (fun target =>
       mkAssetPowerEvent (mkPair None None)
                         (mkPair (input_voltage (state target)) new_in_volt)
                         (mkPair None None))).

(** A child's load event ([ChildAssetLoadIncreased], [ChildAssetPowerUp],
    [ChildAssetLoadDecreased], [ChildAssetPowerDown]) with its [child_load]. *)
Definition ChildLoadEvent (cls : event_class) (child_load : num) : Event :=
  mkEvent cls [("child_load"%string, child_load)] None.

(** What a handler returns. *)
Inductive value : Type :=
| VNone
| VLoadResult (r : LoadEventResult)
| VPowerEvent (e : AssetPowerEvent).

Definition returning {A : Type} (f : A -> value) (m : Py Asset A) : Py Asset value :=
  a <- m ;; ret (f a).

(** A [@handler(...)] registration: the method, the event names it
    subscribes to and its priority (0 unless given). *)
Record Handler : Type := mkHandler {
  h_name : string;
  h_events : list event_class;
  h_priority : Z;
  h_call : Z -> Event -> kwargs -> Py Asset value
}.

(** The registrations of [Asset] over the event vocabulary above, in the
    order of the class body. ([on_child_load_update], subscribed to
    [ChildLoadUpEvent] and [ChildLoadDownEvent] only, is left out.) *)
Definition handlers : list Handler :=
  [ mkHandler "on_load_increase" [ChildAssetLoadIncreased; ChildAssetPowerUp] 0
      (fun _ e kw => returning VLoadResult (on_load_increase e kw));
    mkHandler "on_load_decrease" [ChildAssetLoadDecreased; ChildAssetPowerDown] 0
      (fun _ e kw => returning VLoadResult (on_load_decrease e kw));
    mkHandler "on_btn_power_down" [ButtonPowerDownPressed] 0
      (fun _ e _ => returning (fun _ => VNone) (on_btn_power_down e));
    mkHandler "on_btn_power_up" [ButtonPowerUpPressed] 0
      (fun _ e _ => returning (fun _ => VNone) (on_btn_power_up e));
    mkHandler "detect_input_voltage" [InputVoltageUpEvent; InputVoltageDownEvent] (-1)
      (fun _ e kw => returning (fun _ => VNone) (detect_input_voltage e kw));
    mkHandler "on_parent_volt_up" [InputVoltageUpEvent] 0
      (fun now e kw => returning VPowerEvent (on_parent_volt_up now e kw));
    mkHandler "on_parent_volt_down" [InputVoltageDownEvent] 0
      (fun now e kw => returning VPowerEvent (on_parent_volt_down now e kw)) ].

(** Modelled from the spec: the event bus is an external collaborator. It
    delivers an event to the handlers registered for its name in priority
    order, higher priority first, each handler seeing the state the previous
    one left. *)
Fixpoint insert_handler (h : Handler) (l : list Handler) : list Handler :=
  match l with
  | [] => [h]
  | h' :: l' =>
      if h_priority h' <=? h_priority h then h :: l else h' :: insert_handler h l'
  end.

Definition by_priority (l : list Handler) : list Handler :=
  fold_right insert_handler [] l.

Definition subscribers (c : event_class) : list Handler :=
  by_priority (filter (fun h => existsb (event_class_eqb c) (h_events h)) handlers).

Fixpoint run_handlers (now : Z) (hs : list Handler) (event : Event) (self : Asset)
  : Asset * list (string * result value) :=
  match hs with
  | [] => (self, [])
  | h :: hs' =>
      let (self1, r) := h_call h now event (ev_kwargs event) self in
      let (self2, rs) := run_handlers now hs' event self1 in
      (self2, (h_name h, r) :: rs)
  end.

Definition dispatch (now : Z) (event : Event) (self : Asset)
  : Asset * list (string * result value) :=
  run_handlers now (subscribers (name event)) event self.

(** The subscribers of an event called in the opposite order: for a voltage
    event the handler that commits [new_in_volt] first, the transition
    handler after it. *)
Definition commit_first (now : Z) (event : Event) (self : Asset)
  : Asset * list (string * result value) :=
  run_handlers now (rev (subscribers (name event))) event self.

End Engine.

Arguments AssetState num : clear implicits.
Arguments Asset num : clear implicits.
Arguments LoadEventResult num : clear implicits.
Arguments AssetPowerEvent num : clear implicits.
Arguments Event num : clear implicits.
Arguments kwargs num : clear implicits.
Arguments value num : clear implicits.
Arguments Handler num : clear implicits.

(** ** The threshold evaluator of the storcli emulator *)

(** The part of [StorCLIEmulator] the evaluator reads:
    [self._storcli_details['stateConfig']], a dict from configuration entry
    to an ordered severity table (status name to counter thresholds). *)
Record StorCLIEmulator : Type := mkStorCLIEmulator {
  stateConfig : dict (dict (dict Z))
}.

(** The inner loop [for prop in current_state] for one [status]: [Some
    status] when the loop returns, [None] when it runs to its end. The
    condition reads [current_state[prop]], then [s_conf[status][prop]], and
    compares the status with [optimal] last. *)
Fixpoint for_props (s_conf : dict (dict Z)) (current_state : dict Z)
  (status optimal : string) (props : list string)
  : Py StorCLIEmulator (option string) :=
  match props with
  | [] => ret None
  | prop :: rest =>
      measured <- lift (getitem current_state prop) ;;
      row <- lift (getitem s_conf status) ;;
      threshold <- lift (getitem row prop) ;;
      if (threshold <=? measured) && negb (threshold =? -1)
         && negb (String.eqb status optimal)
      then ret (Some status)
      else for_props s_conf current_state status optimal rest
  end.

(** The outer loop [for status in s_conf]. *)
Fixpoint for_statuses (s_conf : dict (dict Z)) (current_state : dict Z)
  (optimal : string) (statuses : list string)
  : Py StorCLIEmulator (option string) :=
  match statuses with
  | [] => ret None
  | status :: rest =>
      r <- for_props s_conf current_state status optimal (keys current_state) ;;
      match r with
      | Some s => ret (Some s)
      | None => for_statuses s_conf current_state optimal rest
      end
  end.

(** [StorCLIEmulator._get_state_from_config(config_entry, current_state, optimal)]. *)
Definition _get_state_from_config (config_entry : string) (current_state : dict Z)
  (optimal : string) : Py StorCLIEmulator string :=
  self <- get_self ;;
  s_conf <- lift (getitem (stateConfig self) config_entry) ;;
  r <- for_statuses s_conf current_state optimal (keys s_conf) ;;
  match r with
  | Some status => ret status
  | None => ret optimal
  end.

(** A counter of [row] triggers on [current_state]: it is measured, its
    threshold is reached and the threshold is not the sentinel -1. *)
Definition counter_triggers (row current_state : dict Z) (prop : string) : Prop :=
  exists measured threshold,
    dict_get current_state prop = Some measured /\
    dict_get row prop = Some threshold /\
    threshold <= measured /\ threshold <> -1.

(** A status of the table triggers when one of the counters of its row does. *)
Definition status_triggers (s_conf : dict (dict Z)) (current_state : dict Z)
  (status : string) : Prop :=
  exists row, dict_get s_conf status = Some row /\
              exists prop, counter_triggers row current_state prop.

(** Every row of the table gives a threshold for every measured counter. *)
Definition thresholds_given (s_conf : dict (dict Z)) (current_state : dict Z) : Prop :=
  forall status prop,
    In status (keys s_conf) -> In prop (keys current_state) ->
    exists row threshold,
      dict_get s_conf status = Some row /\ dict_get row prop = Some threshold.

(** Decidable forms of [counter_triggers] and [status_triggers]. *)
Definition counter_triggersb (row current_state : dict Z) (prop : string) : bool :=
  match dict_get current_state prop, dict_get row prop with
  | Some measured, Some threshold => (threshold <=? measured) && negb (threshold =? -1)
  | _, _ => false
  end.

Definition status_triggersb (s_conf : dict (dict Z)) (current_state : dict Z)
  (status : string) : bool :=
  match dict_get s_conf status with
  | Some row => existsb (counter_triggersb row current_state) (keys current_state)
  | None => false
  end.

(** The two voltage event classes and the transition handler each one reaches. *)
Definition voltage_class (up : bool) : event_class :=
  if up then InputVoltageUpEvent else InputVoltageDownEvent.

Definition transition_handler (up : bool) : string :=
  if up then "on_parent_volt_up"%string else "on_parent_volt_down"%string.

(** ** Sequences of child load events *)

(** A child's load event as the asset handles it: an increase
    ([ChildAssetLoadIncreased], [ChildAssetPowerUp]) or a decrease
    ([ChildAssetLoadDecreased], [ChildAssetPowerDown]) by [child_load]. *)
Inductive load_change (num : Type) : Type :=
| Increase (child_load : num)
| Decrease (child_load : num).
Arguments Increase {num} child_load.
Arguments Decrease {num} child_load.

Definition handle_load_change {num : Type} `{PyNum num} (c : load_change num)
  : Py (Asset num) (LoadEventResult num) :=
  match c with
  | Increase x =>
      on_load_increase (ChildLoadEvent ChildAssetLoadIncreased x)
                       [("child_load"%string, x)]
  | Decrease x =>
      on_load_decrease (ChildLoadEvent ChildAssetLoadDecreased x)
                       [("child_load"%string, x)]
  end.

(** The assets an asset becomes while it handles [changes] one by one. *)
Fixpoint load_trace {num : Type} `{PyNum num} (changes : list (load_change num))
  (self : Asset num) : list (Asset num) :=
  match changes with
  | [] => []
  | c :: rest =>
      let self' := fst (handle_load_change c self) in
      self' :: load_trace rest self'
  end.

Definition signed_change (c : load_change Q) : Q :=
  match c with
  | Increase x => x
  | Decrease x => (- x)%Q
  end.

(** The initial load plus the increases minus the decreases, after each step. *)
Fixpoint running_totals (l0 : Q) (changes : list (load_change Q)) : list Q :=
  match changes with
  | [] => []
  | c :: rest =>
      let t := (l0 + signed_change c)%Q in
      t :: running_totals t rest
  end.

(** The loads the handlers compute one after the other, in the load's own
    number type: the load so far plus an increase, minus a decrease. *)
Fixpoint computed_totals {num : Type} `{PyNum num} (l0 : num)
  (changes : list (load_change num)) : list num :=
  match changes with
  | [] => []
  | c :: rest =>
      let t := match c with
               | Increase x => add l0 x
               | Decrease x => sub l0 x
               end in
      t :: computed_totals t rest
  end.

(** The rational a finite binary64 value stands for (0 for the others). *)
Definition Q_of_float (f : float) : Q :=
  match Prim2SF f with
  | S754_finite s m e =>
      let q := (inject_Z (Zpos m) * Qpower 2 e)%Q in
      if s then (- q)%Q else q
  | _ => 0%Q
  end.

(** A change of binary64 load as the same change of exact load. *)
Definition exact_change (c : load_change float) : load_change Q :=
  match c with
  | Increase x => Increase (Q_of_float x)
  | Decrease x => Decrease (Q_of_float x)
  end.

(** ** Example assets *)

(** An asset with [min_voltage = 100] and [power_consumption = 240] that is
    Up at 120V with stored load 2. *)
Definition up_at_120 : Asset Q :=
  mkAsset (mkAssetState 1 "server" 120%Q 2%Q Up 0 100%Q 240%Q) ButtonPowerUpPressed.

(** The same asset with binary64 numbers. *)
Definition up_at_120_float : Asset float :=
  mkAsset (mkAssetState 1 "server" 120%float 2%float Up 0 100%float 240%float)
          ButtonPowerUpPressed.

(** The same asset type, Down with no input voltage and no load. *)
Definition down_at_0 : Asset Q :=
  mkAsset (mkAssetState 1 "server" 0%Q 0%Q Down 0 100%Q 240%Q) ButtonPowerUpPressed.

(** An asset storing load 1 in binary64. *)
Definition float_asset_load_1 : Asset float :=
  mkAsset (mkAssetState 1 "pdu" 120%float 1%float Up 0 100%float 240%float)
          ButtonPowerUpPressed.

(** An asset that stores no load, in binary64. *)
Definition float_asset_load_0 : Asset float :=
  mkAsset (mkAssetState 1 "pdu" 120%float 0%float Up 0 100%float 240%float)
          ButtonPowerUpPressed.

(** Two children report 0.1 and 0.7 and withdraw them in the reverse order. *)
Definition float_changes : list (load_change float) :=
  [Increase (1 / 10)%float; Increase (7 / 10)%float;
   Decrease (7 / 10)%float; Decrease (1 / 10)%float].

(** The asset type of the examples, Down with no input voltage, storing the
    load 0.1 of its children, in binary64. *)
Definition down_at_0_float_shared : Asset float :=
  mkAsset (mkAssetState 1 "server" 0%float (1 / 10)%float Down 0 100%float 240%float)
          ButtonPowerUpPressed.

(** The asset Up at 120V whose stored load 5.3 is its own 2.0 and the 3.3 of
    its children, in binary64. *)
Definition up_at_120_float_shared : Asset float :=
  mkAsset (mkAssetState 1 "server" 120%float (53 / 10)%float Up 0 100%float 240%float)
          ButtonPowerUpPressed.

(** The severity table of the first-match example. *)
Definition example_table : dict (dict Z) :=
  [ ("Critical"%string, [("errors"%string, 5)]);
    ("Degraded"%string, [("errors"%string, 1)]) ].

Definition example_emulator : StorCLIEmulator :=
  mkStorCLIEmulator [("physicalDrive"%string, example_table)].

(** ** Python strings *)

(** The line feed. *)
Definition newline : string := String (Ascii.ascii_of_nat 10) EmptyString.

(** [s * n]. *)
Fixpoint str_mul (s : string) (n : nat) : string :=
  match n with
  | O => EmptyString
  | S n' => (s ++ str_mul s n')%string
  end.

(** ['{val:<{width}}'.format(...)]: the text, left-justified in a field of
    [width] characters; a longer text is not cut. *)
Definition ljust (s : string) (width : nat) : string :=
  (s ++ str_mul " " (width - String.length s))%string.

(** [sep.join(l)]. *)
Fixpoint join (sep : string) (l : list string) : string :=
  match l with
  | [] => EmptyString
  | [x] => x
  | x :: rest => (x ++ sep ++ join sep rest)%string
  end.

(** [s.split(sep)] for a separator of one character: the pieces between the
    occurrences of [sep], empty pieces included. *)
Fixpoint split_on (sep : Ascii.ascii) (s : string) : list string :=
  match s with
  | EmptyString => [EmptyString]
  | String c s' =>
      if Ascii.eqb c sep then EmptyString :: split_on sep s'
      else match split_on sep s' with
           | [] => [String c EmptyString]
           | piece :: rest => String c piece :: rest
           end
  end.

(** A text without the separator. *)
Fixpoint sep_free (sep : ascii) (s : string) : Prop :=
  match s with
  | EmptyString => True
  | String c s' => c <> sep /\ sep_free sep s'
  end.

(** A value of a table cell: a Python [str] or [int]. *)
Inductive cell : Type :=
| CellStr (s : string)
| CellInt (z : Z).

(** [str(v)]. *)
Definition py_str (v : cell) : string :=
  match v with
  | CellStr s => s
  | CellInt z => DecimalString.NilZero.string_of_int (Z.to_int z)
  end.

(** [d[k] = v]: the value of an existing key is replaced in place, a new key
    goes last. *)
Fixpoint dict_set {V : Type} (d : dict V) (k : string) (v : V) : dict V :=
  match d with
  | [] => [(k, v)]
  | (k', v') :: d' =>
      if String.eqb k' k then (k', v) :: d' else (k', v') :: dict_set d' k v
  end.

(** ** Tables of the storcli output *)

(** [{key: len(str(key)) for key in headers}]. *)
Definition initial_header_lengths (headers : list string) : dict nat :=
  fold_left (fun d key => dict_set d key (String.length key)) headers [].

(** The loop [for col_key in headers] of [_format_as_table] for one row; the
    store is the local dict [header_lengths]. *)
Fixpoint format_row (table_row : dict cell) (headers : list string) (row_str : string)
  : Py (dict nat) string :=
  match headers with
  | [] => ret row_str
  | col_key :: rest =>
      v <- lift (getitem table_row col_key) ;;
      let val_len := String.length (py_str v) in
      let val_len :=
        if Nat.leb (String.length col_key) val_len then val_len
        else String.length col_key in
      header_lengths <- get_self ;;
      widest <- lift (getitem header_lengths col_key) ;;
      (if Nat.ltb widest val_len
       then modify (fun d => dict_set d col_key val_len)
       else ret tt) ;;;
      format_row table_row rest (row_str ++ ljust (py_str v) (val_len + 1))
  end.

(** The loop [for table_row in table_options]. *)
Fixpoint format_rows (headers : list string) (table_options : list (dict cell))
  : Py (dict nat) (list string) :=
  match table_options with
  | [] => ret []
  | table_row :: rest =>
      row_str <- format_row table_row headers EmptyString ;;
      value_rows <- format_rows headers rest ;;
      ret (row_str :: value_rows)
  end.

(** The header line: the keys of [header_lengths], each left-justified to its
    width, joined by single blanks. *)
Definition header_line (header_lengths : dict nat) : string :=
  join " " (map (fun kw => ljust (fst kw) (snd kw)) header_lengths).

(** [StorCLIEmulator._format_as_table(headers, table_options)]. *)
Definition _format_as_table (headers : list string) (table_options : list (dict cell))
  : result string :=
  match format_rows headers table_options (initial_header_lengths headers) with
  | (header_lengths, Ok value_rows) =>
      let header := header_line header_lengths in
      let divider := (str_mul "-" (String.length header) ++ newline)%string in
      Ok (divider ++ header ++ newline ++ divider
          ++ join newline value_rows ++ newline ++ divider)%string
  | (_, Raise e) => Raise e
  end.

(** The date of manufacture as [_strcli_ctrl_cachevault] prints it:
    ['/'.join(reversed(cv_info['mfgDate'].split('/')))]. *)
Definition storcli_mfg_date (mfg_date : string) : string :=
  join "/" (rev (split_on "/"%char mfg_date)).

(** ** The command loop of the storcli emulator *)

(** The calls of emulator methods the loop makes for the text of a reply;
    the controller is the string [argv[1][-1]]. *)
Inductive storcli_output : Type :=
| CtrlCount
| CtrlPerfMode (controller_num : string)
| RateProp (controller_num : string) (rate_type : string)
| CtrlAlarmState (controller_num : string)
| CtrlInfo (controller_num : string)
| CtrlBbu (controller_num : string)
| CtrlCachevault (controller_num : string)
| CtrlVirtDisk (controller_num : string)
| CtrlPhysDisks (controller_num : string).

(** The reply dict [{"stdout": ..., "stderr": ..., "status": ...}]. *)
Record reply : Type := mkReply {
  stdout : string;
  stderr : string;
  reply_status : Z
}.

(** The exceptions the code of the loop itself can raise. *)
Inductive loop_exn : Type :=
| IndexError
| UnboundLocalError.

Inductive outcome (A : Type) : Type :=
| Done (a : A)
| Fails (e : loop_exn).
Arguments Done {A} a.
Arguments Fails {A} e.

(** A call that returns a value or raises. *)
Inductive returned (Exc A : Type) : Type :=
| Returns (a : A)
| Raises (e : Exc).
Arguments Returns {Exc A} a.
Arguments Raises {Exc A} e.

(** The methods the loop calls read template files and the graph database
    and are not modelled: a call returns the text or raises, and may change
    the emulator on the way (as [_strcli_ctrl_info] does). [World] is the
    emulator with what its methods read, [Exc] the exceptions they raise. *)
Definition methods (World Exc : Type) : Type :=
  storcli_output -> World -> World * returned Exc string.

(** An exception that leaves the loop: raised by the code of the loop or
    inside the method it called; nothing in the loop catches either. *)
Inductive raised (Exc : Type) : Type :=
| InLoop (e : loop_exn)
| InMethod (e : Exc).
Arguments InLoop {Exc} e.
Arguments InMethod {Exc} e.

(** [s[-1]]. *)
Fixpoint last_char (s : string) : outcome string :=
  match s with
  | EmptyString => Fails IndexError
  | String c EmptyString => Done (String c EmptyString)
  | String _ s' => last_char s'
  end.

Section CommandLoop.

Context {World Exc : Type}.
Variable emulator : methods World Exc.

(** [reply['stdout'] = <text>] on the default reply. *)
Definition say (text : string) : World -> World * returned (raised Exc) reply :=
  fun w => (w, Returns (mkReply text EmptyString 0)).

(** [reply['stdout'] = self.<method>(...)]: an exception of the method
    propagates, the assignment does not happen. *)
Definition call_method (o : storcli_output)
  : World -> World * returned (raised Exc) reply :=
  fun w =>
    match emulator o w with
    | (w', Returns text) => (w', Returns (mkReply text EmptyString 0))
    | (w', Raises e) => (w', Raises (InMethod e))
    end.

(** A method called with [argv[1][-1]]. *)
Definition with_controller (s : string) (f : string -> storcli_output)
  : World -> World * returned (raised Exc) reply :=
  fun w =>
    match last_char s with
    | Done c => call_method (f c) w
    | Fails e => (w, Raises (InLoop e))
    end.

Definition usage (argv : list string) : World -> World * returned (raised Exc) reply :=
  fun w =>
    match argv with
    | [] => (w, Raises (InLoop IndexError))
    | argv0 :: _ =>
        (w, Returns (mkReply EmptyString ("Usage: " ++ argv0 ++ " --version") 1))
    end.

(** The body of the loop of [_listen_cmds] from [reply = ...] on: the reply
    to one [argv], or the exception that leaves the loop. *)
Definition reply_to (argv : list string) : World -> World * returned (raised Exc) reply :=
  match argv with
  | [_; a1] =>
      say (if String.eqb a1 "--version" then "Version 0.01" else EmptyString)
  | [_; a1; a2] =>
      if String.eqb a1 "show" && String.eqb a2 "ctrlcount"
      then call_method CtrlCount
      else say EmptyString
  | [_; a1; a2; a3] =>
      if String.prefix "/c" a1 then
        if String.eqb a2 "show" && String.eqb a3 "perfmode"
        then with_controller a1 CtrlPerfMode
        else if String.eqb a2 "show" && String.eqb a3 "bgirate"
        then with_controller a1 (fun c => RateProp c "bgi_rate")
        else if String.eqb a2 "show" && String.eqb a3 "ccrate"
        then with_controller a1 (fun c => RateProp c "cc_rate")
        else if String.eqb a2 "show" && String.eqb a3 "rebuildrate"
        then with_controller a1 (fun c => RateProp c "rebuild_rate")
        else if String.eqb a2 "show" && String.eqb a3 "prrate"
        then with_controller a1 (fun c => RateProp c "pr_rate")
        else if String.eqb a2 "show" && String.eqb a3 "alarm"
        then with_controller a1 CtrlAlarmState
        else if String.eqb a2 "show" && String.eqb a3 "all"
        then with_controller a1 CtrlInfo
        else say EmptyString
      else usage argv
  | [_; a1; a2; a3; a4] =>
      if String.prefix "/c" a1 then
        if String.eqb a2 "/bbu" && String.eqb a3 "show" && String.eqb a4 "all"
        then with_controller a1 CtrlBbu
        else if String.eqb a2 "/cv" && String.eqb a3 "show" && String.eqb a4 "all"
        then with_controller a1 CtrlCachevault
        else if String.eqb a2 "/vall" && String.eqb a3 "show" && String.eqb a4 "all"
        then with_controller a1 CtrlVirtDisk
        else say EmptyString
      else usage argv
  | [_; a1; a2; a3; a4; a5] =>
      if String.prefix "/c" a1 then
        if String.eqb a2 "/eall" && String.eqb a3 "/sall"
           && String.eqb a4 "show" && String.eqb a5 "all"
        then with_controller a1 CtrlPhysDisks
        else say EmptyString
      else usage argv
  | _ => usage argv
  end.

End CommandLoop.

(** What [conn.recv] delivers, as [json.loads] reads it: text that is not
    JSON, or an object whose [argv] is a list of strings. *)
Inductive received_data : Type :=
| BadJSON
| Json (argv : list string).

(** The loop of [_listen_cmds] over the data received until the connection
    closes. [received] is the local variable of that name, unbound until the
    first JSON text was read: a [JSONDecodeError] is logged and the loop
    body goes on with the variable as it is. The result is the emulator as
    the calls left it, the replies sent and the exception that ended the
    loop, if one did. *)
Fixpoint listen {World Exc : Type} (emulator : methods World Exc)
  (incoming : list received_data) (received : option (list string)) (w : World)
  : World * (list reply * option (raised Exc)) :=
  match incoming with
  | [] => (w, ([], None))
  | data :: rest =>
      let received :=
        match data with
        | Json argv => Some argv
        | BadJSON => received
        end in
      match received with
      | None => (w, ([], Some (InLoop UnboundLocalError)))
      | Some argv =>
          match reply_to emulator argv w with
          | (w', Raises e) => (w', ([], Some e))
          | (w', Returns r) =>
              let '(w'', (sent, e)) := listen emulator rest received w' in
              (w'', (r :: sent, e))
          end
      end
  end.

(** [_listen_cmds] from the first [conn.recv] on. *)
Definition _listen_cmds {World Exc : Type} (emulator : methods World Exc)
  (incoming : list received_data) (w : World)
  : World * (list reply * option (raised Exc)) :=
  listen emulator incoming None w.

(** The data received with every text that is not JSON replaced by the last
    JSON text read before it, when there is one. *)
Fixpoint resend (incoming : list received_data) (last : option (list string))
  : list received_data :=
  match incoming with
  | [] => []
  | Json argv :: rest => Json argv :: resend rest (Some argv)
  | BadJSON :: rest =>
      match last with
      | Some argv => Json argv :: resend rest last
      | None => BadJSON :: resend rest last
      end
  end.

(** The shapes of [argv] the loop does not answer with the usage text. *)
Definition accepted (argv : list string) : bool :=
  match argv with
  | [_; _] | [_; _; _] => true
  | [_; a1; _; _] | [_; a1; _; _; _] | [_; a1; _; _; _; _] => String.prefix "/c" a1
  | _ => false
  end.

(** How a pass over an accepted [argv] can end: with a reply of status 0
    whose [stdout] is the text a method returned, or the default text when
    no method was called; or with the exception a method raised. *)
Definition pass_ok {World Exc : Type} (emulator : methods World Exc) (w : World)
  (p : World * returned (raised Exc) reply) : Prop :=
  match p with
  | (w', Returns r) =>
      reply_status r = 0 /\ stderr r = EmptyString
      /\ ((exists o, emulator o w = (w', Returns (stdout r)))
          \/ (w' = w /\ (stdout r = EmptyString \/ stdout r = "Version 0.01"%string)))
  | (w', Raises (InMethod x)) => exists o, emulator o w = (w', Raises x)
  | (_, Raises (InLoop _)) => False
  end.

(** Example methods: each answers with the controller it was called for,
    except [_strcli_ctrl_info], which finds a configuration only for
    controller 0. *)
Definition example_methods : methods unit exn :=
  fun o w =>
    match o with
    | CtrlCount => (w, Returns "1"%string)
    | CtrlInfo c =>
        (w, if String.eqb c "0" then Returns c else Raises (KeyError "controller"))
    | CtrlPerfMode c | RateProp c _ | CtrlAlarmState c | CtrlBbu c
    | CtrlCachevault c | CtrlVirtDisk c | CtrlPhysDisks c => (w, Returns c)
    end.

(** ** The state of a virtual drive *)

(** What the emulator reads of a physical drive of the topology. *)
Record p_drive : Type := mkPDrive {
  pd_mediaErrorCount : Z;
  pd_otherErrorCount : Z;
  pd_State : string
}.

(** [d[k] += x] on a dict held in a local variable. *)
Definition dict_add (d : dict Z) (k : string) (x : Z) : result (dict Z) :=
  match getitem d k with
  | Ok cur => Ok (dict_set d k (cur + x))
  | Raise e => Raise e
  end.

(** The loop [for p_drive in v_drive['pd']] on a [vd_state] that is a copy. *)
Fixpoint count_pd_errors (vd_state : dict Z) (pds : list p_drive) : result (dict Z) :=
  match pds with
  | [] => Ok vd_state
  | p :: rest =>
      match dict_add vd_state "mediaErrorCount" (pd_mediaErrorCount p) with
      | Raise e => Raise e
      | Ok s1 =>
          match dict_add s1 "otherErrorCount" (pd_otherErrorCount p) with
          | Raise e => Raise e
          | Ok s2 =>
              if String.eqb (pd_State p) "Offln" then
                match dict_add s2 "numPdOffline" 1 with
                | Raise e => Raise e
                | Ok s3 => count_pd_errors s3 rest
                end
              else count_pd_errors s2 rest
          end
      end
  end.

(** [self._storcli_details['stateConfig']['virtualDrive']['Optl']]. *)
Definition optl_row : Py StorCLIEmulator (dict Z) :=
  self <- get_self ;;
  vd_conf <- lift (getitem (stateConfig self) "virtualDrive") ;;
  lift (getitem vd_conf "Optl").

(** The state of one virtual drive in [_get_virtual_drives]: the counters
    start from a deep copy of the Optl row. *)
Definition vd_state_of_copy (pds : list p_drive) : Py StorCLIEmulator string :=
  optl <- optl_row ;;
  vd_state <- lift (count_pd_errors optl pds) ;;
  _get_state_from_config "virtualDrive" vd_state "Optl".

(** The states [_get_virtual_drives] gives the virtual drives, each drive
    given by its physical drives. *)
Fixpoint _get_virtual_drives_states (vd_details : list (list p_drive))
  : Py StorCLIEmulator (list string) :=
  match vd_details with
  | [] => ret []
  | pds :: rest =>
      st <- vd_state_of_copy pds ;;
      sts <- _get_virtual_drives_states rest ;;
      ret (st :: sts)
  end.

(** The Optl row of the configuration written through the reference
    [vd_state] of [_strcli_ctrl_info]. *)
Definition write_optl (row : dict Z) (self : StorCLIEmulator) : StorCLIEmulator :=
  match dict_get (stateConfig self) "virtualDrive" with
  | Some vd_conf =>
      mkStorCLIEmulator
        (dict_set (stateConfig self) "virtualDrive" (dict_set vd_conf "Optl" row))
  | None => self
  end.

(** [vd_state[k] += x] where [vd_state] is the Optl row itself. *)
Definition optl_add (k : string) (x : Z) : Py StorCLIEmulator unit :=
  row <- optl_row ;;
  cur <- lift (getitem row k) ;;
  modify (write_optl (dict_set row k (cur + x))).

(** The loop [for p_drive in v_drive['pd']] of [_strcli_ctrl_info]. *)
Fixpoint count_pd_errors_in_place (pds : list p_drive) : Py StorCLIEmulator unit :=
  match pds with
  | [] => ret tt
  | p :: rest =>
      optl_add "mediaErrorCount" (pd_mediaErrorCount p) ;;;
      optl_add "otherErrorCount" (pd_otherErrorCount p) ;;;
      (if String.eqb (pd_State p) "Offln" then optl_add "numPdOffline" 1 else ret tt) ;;;
      count_pd_errors_in_place rest
  end.

(** The state of one virtual drive in [_strcli_ctrl_info]: [vd_state] is the
    Optl row of the configuration, not a copy. *)
Definition vd_state_in_place (pds : list p_drive) : Py StorCLIEmulator string :=
  optl_row ;;;
  count_pd_errors_in_place pds ;;;
  vd_state <- optl_row ;;
  _get_state_from_config "virtualDrive" vd_state "Optl".

(** The states [_strcli_ctrl_info] gives the virtual drives. *)
Fixpoint _strcli_ctrl_info_vd_states (vds : list (list p_drive))
  : Py StorCLIEmulator (list string) :=
  match vds with
  | [] => ret []
  | pds :: rest =>
      st <- vd_state_in_place pds ;;
      sts <- _strcli_ctrl_info_vd_states rest ;;
      ret (st :: sts)
  end.

(** ** The layout of a table, in closed form *)

(** The text of the cell of [table_row] under [col_key]. *)
Definition cell_text (table_row : dict cell) (col_key : string) : string :=
  match dict_get table_row col_key with
  | Some v => py_str v
  | None => EmptyString
  end.

(** The width a row gives a cell: that of the text or of the column key,
    whichever is longer. *)
Definition cell_len (table_row : dict cell) (col_key : string) : nat :=
  Nat.max (String.length (cell_text table_row col_key)) (String.length col_key).

(** A row: every cell left-justified to its own width plus one blank. *)
Definition row_text (headers : list string) (table_row : dict cell) : string :=
  fold_right (fun col_key acc =>
                (ljust (cell_text table_row col_key) (cell_len table_row col_key + 1)
                 ++ acc)%string)
             EmptyString headers.

(** The width of a column: that of its key or of its widest cell. *)
Definition col_width (table_options : list (dict cell)) (col_key : string) : nat :=
  fold_left (fun w table_row => Nat.max w (cell_len table_row col_key))
            table_options (String.length col_key).

Definition header_text (headers : list string) (table_options : list (dict cell)) : string :=
  join " " (map (fun col_key => ljust col_key (col_width table_options col_key)) headers).

Definition table_text (headers : list string) (table_options : list (dict cell)) : string :=
  let header := header_text headers table_options in
  let divider := (str_mul "-" (String.length header) ++ newline)%string in
  (divider ++ header ++ newline ++ divider
   ++ join newline (map (row_text headers) table_options) ++ newline ++ divider)%string.

(** Every row has a cell for every header. *)
Definition rows_complete (headers : list string) (table_options : list (dict cell)) : Prop :=
  Forall (fun table_row =>
            Forall (fun col_key => exists v, dict_get table_row col_key = Some v) headers)
         table_options.

(** ** Lists of results *)

(** The values of a list of results, or the first exception. *)
Fixpoint all_ok {A : Type} (l : list (result A)) : result (list A) :=
  match l with
  | [] => Ok []
  | Raise e :: _ => Raise e
  | Ok a :: rest =>
      match all_ok rest with
      | Ok l' => Ok (a :: l')
      | Raise e => Raise e
      end
  end.

(** The non-empty prefixes of a list, shortest first. *)
Fixpoint prefixes {A : Type} (l : list A) : list (list A) :=
  match l with
  | [] => []
  | x :: rest => [x] :: map (cons x) (prefixes rest)
  end.

(** The state [_get_state_from_config] gives a virtual drive whose counters
    start from the row [r] and count the physical drives [pds]. *)
Definition state_from (self : StorCLIEmulator) (r : dict Z) (pds : list p_drive)
  : result string :=
  match count_pd_errors r pds with
  | Ok v => snd (_get_state_from_config "virtualDrive" v "Optl" self)
  | Raise e => Raise e
  end.

(** ** Example data of the emulator *)

(** [StorCLIEmulator.vd_header]. *)
Definition vd_header : list string :=
  ["DG/VD"; "TYPE"; "State"; "Access"; "Consist"; "Cache"; "Cac"; "sCC"; "Size"; "Name"]%string.

(** A virtual drive row as [_get_virtual_drives] passes it to
    [_format_as_table]. *)
Definition example_vd_row : dict cell :=
  [ ("DG/VD", CellStr "0/0"); ("TYPE", CellStr "RAID1"); ("State", CellStr "Optl");
    ("Access", CellStr "RW"); ("Consist", CellStr "Yes"); ("Cache", CellStr "RWTD");
    ("Cac", CellStr "-"); ("sCC", CellStr "ON"); ("Size", CellStr "744.687 GB");
    ("Name", CellStr "VD_0") ]%string.

(** A row that stops after its second cell. *)
Definition short_vd_row : dict cell :=
  [ ("DG/VD", CellStr "0/1"); ("TYPE", CellStr "RAID1") ]%string.

(** A severity table for virtual drives and an emulator configured with it. *)
Definition example_vd_table : dict (dict Z) :=
  [ ("Optl", [("mediaErrorCount", 0); ("otherErrorCount", 0); ("numPdOffline", 0)]);
    ("Dgrd", [("mediaErrorCount", 3); ("otherErrorCount", 3); ("numPdOffline", 1)]);
    ("Pdgd", [("mediaErrorCount", -1); ("otherErrorCount", -1); ("numPdOffline", -1)])
  ]%string.

Definition example_vd_emulator : StorCLIEmulator :=
  mkStorCLIEmulator [("virtualDrive"%string, example_vd_table)].

(** A physical drive with two media errors. *)
Definition example_pd : p_drive := mkPDrive 2 0 "Onln".

(** * Properties *)

(** ** Running the monad *)

Ltac py_unfold :=
  unfold bind, lift, ret, get_self, modify, on_state_, on_state, set_state_reason.

Section Generic.

Context {num : Type} `{PyNum num}.

Lemma calc_load_ok (self : Asset num) (v : num) :
  calc_load self v =
    Ok (if truthy v then div (power_consumption (state self)) v else of_int 0).
Proof.
  unfold calc_load, truediv, truthy.
  destruct (num_eqb v (of_int 0)); reflexivity.
Qed.

(** [account_load] never raises: it stores the delta when the two load
    components differ and leaves the asset alone when they are equal. *)
Lemma account_load_run (ev : AssetPowerEvent num) (cur : Asset num) :
  let old_l := if truthy (old (out_volt ev))
               then div (power_consumption (state cur)) (old (out_volt ev))
               else of_int 0 in
  let new_l := if truthy (new (out_volt ev))
               then div (power_consumption (state cur)) (new (out_volt ev))
               else of_int 0 in
  account_load ev cur =
    (if negb (num_eqb new_l old_l)
     then mkAsset (update_load (add (sub (load (state cur)) old_l) new_l) (_state cur))
                  (_state_reason cur)
     else cur,
     Ok (set_load_old (Some old_l) (set_load_new (Some new_l) ev))).
Proof.
  intros old_l new_l. unfold account_load. py_unfold.
  rewrite !calc_load_ok. fold old_l new_l.
  destruct (negb (num_eqb new_l old_l)); reflexivity.
Qed.

Lemma account_load_status (ev : AssetPowerEvent num) (cur : Asset num) :
  status (state (fst (account_load ev cur))) = status (state cur).
Proof.
  rewrite account_load_run. cbn.
  match goal with |- context [if ?b then _ else _] => destruct b end; reflexivity.
Qed.

Lemma reset_out_volt_status (now : Z) (pa : option PowerAction) (was : PowerStatus)
  (ev : AssetPowerEvent num) (self : Asset num) :
  status (state (fst (reset_out_volt now pa was ev self))) =
    match pa with
    | Some ActPowerOff => Down
    | Some ActPowerUp => Up
    | None => status (state self)
    end.
Proof.
  unfold reset_out_volt. destruct pa as [[|]|]; py_unfold; cbn;
    try destruct (to_int (old (out_volt ev))); reflexivity.
Qed.

End Generic.

(** The status an asset is left with by [_process_parent_volt_e], whether the
    handler returns or raises. *)
Lemma process_status {num : Type} `{PyNum num} (now : Z) (self : Asset num)
  (cls : event_class) (kw : kwargs num) (m : Asset num -> AssetPowerEvent num) :
  status (state (fst (_process_parent_volt_e now (mkEvent cls kw (Some m)) self))) =
    match choose_power_action (new (out_volt (m self))) (min_voltage (state self))
                              (status (state self)) with
    | Some ActPowerOff => Down
    | Some ActPowerUp => Up
    | None => status (state self)
    end.
Proof.
  unfold _process_parent_volt_e, call_get_next_power_event, min_voltage_prop.
  py_unfold. cbn [get_next_power_event].
  set (ev := set_state_old _ _).
  set (pa := choose_power_action _ _ _).
  change (new (out_volt (m self))) with (new (out_volt ev)). fold pa.
  pose proof (reset_out_volt_status now pa (status (state self)) ev self) as Hs.
  destruct (reset_out_volt now pa (status (state self)) ev self) as [s1 [a|e]];
    cbn [fst] in Hs.
  - rewrite account_load_status. exact Hs.
  - exact Hs.
Qed.

(** C2. In the voltage-driven transition, for every asset and every voltage
    event: when the new output voltage of the event is at most [min_voltage]
    and the asset is Up, the asset goes Down; otherwise, when the new output
    voltage exceeds [min_voltage] and the asset is Down, the asset goes Up;
    otherwise the power status is unchanged. In particular the asset that is
    Down at 0V with [min_voltage = 100] becomes Up on
    [InputVoltageUpEvent(new_in_volt=120)]. *)
Theorem voltage_transition_status :
  (forall (num : Type) (P : PyNum num) (now : Z) (self : Asset num)
          (cls : event_class) (kw : kwargs num)
          (m : Asset num -> AssetPowerEvent num),
      let event := mkEvent cls kw (Some m) in
      let new_out_volt := new (out_volt (m self)) in
      let min_volt := min_voltage (state self) in
      let was := status (state self) in
      status (state (fst (_process_parent_volt_e now event self))) =
        if num_leb new_out_volt min_volt && is_up was then Down
        else if num_ltb min_volt new_out_volt && negb (is_up was) then Up
        else was)
  /\ (forall now : Z,
        status (state down_at_0) = Down /\
        status (state (fst (_process_parent_volt_e now
                              (InputVoltageEvent InputVoltageUpEvent 120%Q)
                              down_at_0))) = Up).
Proof.
  split.
  - intros. subst event new_out_volt min_volt was.
    rewrite process_status. unfold choose_power_action.
    destruct (num_leb _ _ && is_up _); [reflexivity|].
    destruct (num_ltb _ _ && negb (is_up _)); reflexivity.
  - intros now. split; reflexivity.
Qed.

(** C8. The load computation of the voltage-driven transition is total: for
    every voltage [v] it is [power_consumption / v] when [v] is non-zero and
    0 when [v] is zero, and it never raises a division fault. *)
Theorem calc_load_total :
  (forall (num : Type) (P : PyNum num) (self : Asset num) (v : num),
      calc_load self v =
        Ok (if num_eqb v (of_int 0) then of_int 0
            else div (power_consumption (state self)) v)
      /\ calc_load self v <> Raise ZeroDivisionError)
  /\ calc_load up_at_120 120%Q = Ok (240 / 120)%Q
  /\ calc_load up_at_120 0%Q = Ok 0%Q
  /\ calc_load up_at_120_float 0%float = Ok 0%float
  /\ calc_load up_at_120_float (-0)%float = Ok 0%float.
Proof.
  split.
  - intros. rewrite calc_load_ok. unfold truthy.
    destruct (num_eqb v (of_int 0)); cbn; split; (reflexivity || discriminate).
  - repeat split; reflexivity.
Qed.

(** C10. Right after construction an asset stores input voltage 0 and load 0,
    its boot time has been reset to the time of construction, and the
    recorded reason is the button power-up event, so
    [power_state_caused_by_user] holds although no button event was received. *)
Theorem asset_init_defaults :
  forall (num : Type) (P : PyNum num) (now : Z) (st : AssetState num),
    let self := Asset_init now st in
    input_voltage (state self) = of_int 0
    /\ load (state self) = of_int 0
    /\ boot_time (state self) = now
    /\ state_reason self = ButtonPowerUpPressed
    /\ power_state_caused_by_user self = true
    /\ status (state self) = status st
    /\ key (state self) = key st.
Proof.
  intros. subst self. repeat split.
Qed.

(** ** The voltage-driven transition, step by step *)

Lemma process_run {num : Type} `{PyNum num} (now : Z) (self : Asset num)
  (cls : event_class) (kw : kwargs num) (m : Asset num -> AssetPowerEvent num) :
  let was := status (state self) in
  let ev0 := set_state_old (Some was) (m self) in
  let pa := choose_power_action (new (out_volt ev0)) (min_voltage (state self)) was in
  _process_parent_volt_e now (mkEvent cls kw (Some m)) self =
    match reset_out_volt now pa was ev0 self with
    | (s1, Ok e1) => account_load e1 s1
    | (s1, Raise e) => (s1, Raise e)
    end.
Proof. reflexivity. Qed.

(** A power action touches neither the stored load nor the static properties. *)
Lemma reset_out_volt_frame {num : Type} `{PyNum num} (now : Z)
  (pa : option PowerAction) (was : PowerStatus) (ev : AssetPowerEvent num)
  (self : Asset num) :
  let s1 := fst (reset_out_volt now pa was ev self) in
  load (state s1) = load (state self)
  /\ power_consumption (state s1) = power_consumption (state self)
  /\ input_voltage (state s1) = input_voltage (state self).
Proof.
  unfold reset_out_volt. destruct pa as [[|]|]; py_unfold; cbn;
    try destruct (to_int (old (out_volt ev))); repeat split.
Qed.

(** Over [Q], where [int()] cannot raise, [reset_out_volt] returns. *)
Lemma reset_out_volt_Q (now : Z) (pa : option PowerAction) (was : PowerStatus)
  (ev : AssetPowerEvent Q) (self : Asset Q) :
  exists e1,
    snd (reset_out_volt now pa was ev self) = Ok e1
    /\ match pa with
       | Some _ =>
           old (out_volt e1) = (old (out_volt ev) * inject_Z (status_int was))%Q
           /\ new (out_volt e1) =
                (new (out_volt ev)
                 * inject_Z (Z.lxor (Z.quot (Qnum (old (out_volt ev)))
                                            (Zpos (Qden (old (out_volt ev))))) 1))%Q
       | None => e1 = ev
       end.
Proof.
  destruct pa as [[|]|]; cbn; eexists; repeat split.
Qed.

(** What [_process_parent_volt_e] does to the event and to the stored load,
    for any numbers, in terms of the event [reset_out_volt] leaves. *)
Lemma process_load_from_reset {num : Type} `{PyNum num} (now : Z) (self : Asset num)
  (cls : event_class) (kw : kwargs num) (m : Asset num -> AssetPowerEvent num) :
  let was := status (state self) in
  let pa := choose_power_action (new (out_volt (m self))) (min_voltage (state self)) was in
  let r := _process_parent_volt_e now (mkEvent cls kw (Some m)) self in
  match snd (reset_out_volt now pa was (set_state_old (Some was) (m self)) self) with
  | Ok e1 =>
      let old_c := if truthy (old (out_volt e1))
                   then div (power_consumption (state self)) (old (out_volt e1))
                   else of_int 0 in
      let new_c := if truthy (new (out_volt e1))
                   then div (power_consumption (state self)) (new (out_volt e1))
                   else of_int 0 in
      exists ev,
        snd r = Ok ev
        /\ out_volt ev = out_volt e1
        /\ match pa with
           | None => out_volt ev = out_volt (m self)
           | Some _ =>
               old (out_volt ev)
               = mul (old (out_volt (m self))) (of_int (status_int was))
           end
        /\ ev_load ev = mkPair (Some old_c) (Some new_c)
        /\ load (state (fst r)) =
             if negb (num_eqb new_c old_c)
             then add (sub (load (state self)) old_c) new_c
             else load (state self)
  | Raise x => snd r = Raise x /\ load (state (fst r)) = load (state self)
  end.
Proof.
  intros was pa r. subst r. rewrite process_run. cbv zeta. fold was.
  set (ev0 := set_state_old (Some was) (m self)).
  change (choose_power_action (new (out_volt ev0)) (min_voltage (state self)) was) with pa.
  destruct (reset_out_volt_frame now pa was ev0 self) as (Hl & Hp & _).
  assert (Hv : match snd (reset_out_volt now pa was ev0 self) with
               | Ok e1 => match pa with
                          | None => out_volt e1 = out_volt (m self)
                          | Some _ => old (out_volt e1)
                                      = mul (old (out_volt (m self))) (of_int (status_int was))
                          end
               | Raise _ => True
               end).
  { unfold reset_out_volt. destruct pa as [a|]; [|reflexivity].
    unfold bind, lift, ret.
    destruct (run_power_action now a self) as [s1 [st|x]]; [|exact I].
    cbn [ev0 set_state_old out_volt old].
    destruct (to_int (old (out_volt (m self)))); [reflexivity|exact I]. }
  destruct (reset_out_volt now pa was ev0 self) as [s1 [e1|e]]; cbn [fst snd] in *.
  - rewrite account_load_run. cbn [fst snd]. rewrite Hp.
    eexists. split; [reflexivity|]. split; [reflexivity|].
    split; [destruct pa; exact Hv|]. split; [reflexivity|].
    match goal with |- context [negb ?b] => destruct (negb b) end;
      cbn; rewrite ?Hl; reflexivity.
  - split; [reflexivity|exact Hl].
Qed.

(** C3 (amended). In the voltage-driven transition the stored load is updated
    by the delta of the asset's own contribution only: the two load components
    are computed from the output voltages of the event (those the event came
    with when no power action runs, the re-set ones after a power action); the
    new stored load is (load - old component) + new component as the load's
    number type computes it, and the load is not written when the components
    are equal. With exact arithmetic what the other children contributed is
    preserved exactly: new load - new component = load - old component. *)
Theorem load_updated_by_delta :
  (forall (num : Type) (P : PyNum num) (now : Z) (self : Asset num)
          (cls : event_class) (kw : kwargs num)
          (m : Asset num -> AssetPowerEvent num),
      let was := status (state self) in
      let pa := choose_power_action (new (out_volt (m self)))
                                    (min_voltage (state self)) was in
      let r := _process_parent_volt_e now (mkEvent cls kw (Some m)) self in
      match snd (reset_out_volt now pa was (set_state_old (Some was) (m self)) self) with
      | Ok e1 =>
          let old_c := if truthy (old (out_volt e1))
                       then div (power_consumption (state self)) (old (out_volt e1))
                       else of_int 0 in
          let new_c := if truthy (new (out_volt e1))
                       then div (power_consumption (state self)) (new (out_volt e1))
                       else of_int 0 in
          exists ev,
            snd r = Ok ev
            /\ out_volt ev = out_volt e1
            /\ match pa with
               | None => out_volt ev = out_volt (m self)
               | Some _ =>
                   old (out_volt ev)
                   = mul (old (out_volt (m self))) (of_int (status_int was))
               end
            /\ ev_load ev = mkPair (Some old_c) (Some new_c)
            /\ load (state (fst r)) =
                 if negb (num_eqb new_c old_c)
                 then add (sub (load (state self)) old_c) new_c
                 else load (state self)
      | Raise x => snd r = Raise x /\ load (state (fst r)) = load (state self)
      end)
  /\ (forall (now : Z) (self : Asset Q) (cls : event_class) (kw : kwargs Q)
             (m : Asset Q -> AssetPowerEvent Q),
        let was := status (state self) in
        let pa := choose_power_action (new (out_volt (m self)))
                                      (min_voltage (state self)) was in
        let r := _process_parent_volt_e now (mkEvent cls kw (Some m)) self in
        exists e1 ev old_c new_c,
          snd (reset_out_volt now pa was (set_state_old (Some was) (m self)) self) = Ok e1
          /\ snd r = Ok ev
          /\ out_volt ev = out_volt e1
          /\ calc_load self (old (out_volt e1)) = Ok old_c
          /\ calc_load self (new (out_volt e1)) = Ok new_c
          /\ ev_load ev = mkPair (Some old_c) (Some new_c)
          /\ load (state (fst r)) == load (state self) - old_c + new_c
          /\ load (state (fst r)) - new_c == load (state self) - old_c)%Q.
Proof.
  split.
  - intros. apply process_load_from_reset.
  - intros now self cls kw m was pa r.
    pose proof (process_load_from_reset now self cls kw m) as Hg.
    cbv zeta in Hg. fold was pa r in Hg.
    destruct (reset_out_volt_Q now pa was (set_state_old (Some was) (m self)) self)
      as (e1 & He1 & _).
    rewrite He1 in Hg. destruct Hg as (ev & Hev & Hout & _ & Hl & Hload).
    exists e1, ev. do 2 eexists.
    split; [exact He1|]. split; [exact Hev|]. split; [exact Hout|].
    split; [apply calc_load_ok|]. split; [apply calc_load_ok|].
    split; [exact Hl|].
    rewrite Hload. cbn.
    match goal with |- context [Qeq_bool ?a ?b] => destruct (Qeq_bool a b) eqn:E end; cbn.
    + apply Qeq_bool_eq in E. split; lra.
    + split; [reflexivity|unfold Qminus; ring].
Qed.

(** C3 as stated fails for Python floats, which is what the loads are: the
    asset that is Down at 0V and stores the load 0.1 of its children powers up
    on 120V; its own component goes from 0 to 2.0 and the stored load becomes
    (0.1 - 0) + 2.0 = 2.1, of which 2.1 - 2.0 = 0.10000000000000009 is left for
    the children, not the 0.1 stored before. Without a change of status the
    same happens to the asset Up at 120V storing 5.3 on a drop to 115V. *)
Lemma load_delta_rounds_float :
  (let self := down_at_0_float_shared in
   let r := _process_parent_volt_e 0 (InputVoltageEvent InputVoltageUpEvent 120%float) self in
   status (state self) = Down
   /\ status (state (fst r)) = Up
   /\ (exists ev,
         snd r = Ok ev
         /\ out_volt ev = mkPair 0%float 120%float
         /\ ev_load ev = mkPair (Some 0%float) (Some 2%float))
   /\ load (state (fst r)) = add (sub (load (state self)) 0%float) 2%float
   /\ PrimFloat.eqb (sub (load (state (fst r))) 2%float)
                    (sub (load (state self)) 0%float) = false)
  /\ (let self := up_at_120_float_shared in
      let r := _process_parent_volt_e 0 (InputVoltageEvent InputVoltageDownEvent 115%float)
                                      self in
      status (state (fst r)) = Up
      /\ (exists ev,
            snd r = Ok ev
            /\ out_volt ev = mkPair 120%float 115%float
            /\ ev_load ev = mkPair (Some 2%float) (Some (240 / 115)%float))
      /\ load (state (fst r)) = add (sub (load (state self)) 2%float) (240 / 115)%float
      /\ PrimFloat.eqb (sub (load (state (fst r))) (240 / 115)%float)
                       (sub (load (state self)) 2%float) = false).
Proof.
  cbv zeta. split.
  - split; [reflexivity|]. split; [reflexivity|]. split.
    + eexists. split; [reflexivity|]. split; reflexivity.
    + split; reflexivity.
  - split; [reflexivity|]. split.
    + eexists. split; [reflexivity|]. split; reflexivity.
    + split; reflexivity.
Qed.

Lemma process_event_Q (now : Z) (self : Asset Q) (cls : event_class) (kw : kwargs Q)
  (m : Asset Q -> AssetPowerEvent Q) :
  let was := status (state self) in
  let pa := choose_power_action (new (out_volt (m self))) (min_voltage (state self)) was in
  exists ev,
    snd (_process_parent_volt_e now (mkEvent cls kw (Some m)) self) = Ok ev
    /\ match pa with
       | Some _ =>
           old (out_volt ev) = (old (out_volt (m self)) * inject_Z (status_int was))%Q
           /\ new (out_volt ev) =
                (new (out_volt (m self))
                 * inject_Z (Z.lxor (Z.quot (Qnum (old (out_volt (m self))))
                                            (Zpos (Qden (old (out_volt (m self)))))) 1))%Q
       | None => out_volt ev = out_volt (m self)
       end.
Proof.
  intros was pa. rewrite process_run. cbv zeta. fold was.
  set (ev0 := set_state_old (Some was) (m self)).
  change (choose_power_action (new (out_volt ev0)) (min_voltage (state self)) was) with pa.
  destruct (reset_out_volt_Q now pa was ev0 self) as (e1 & He1 & Hv).
  destruct (reset_out_volt now pa was ev0 self) as [s1 r1]; cbn [snd] in He1.
  subst r1. rewrite account_load_run. cbn [snd].
  eexists. split; [reflexivity|].
  destruct pa; cbn.
  - exact Hv.
  - subst e1. reflexivity.
Qed.

(** C4 (amended). When a voltage event causes a power transition, the event
    built for the children carries as old output voltage the previous voltage
    if the asset was powered before the event and 0 otherwise; its new output
    voltage is the new voltage of the event when the previous voltage is 0,
    and 0 when the new voltage of the event is 0. *)
Theorem outbound_voltages_on_transition :
  forall (now : Z) (self : Asset Q) (cls : event_class) (kw : kwargs Q)
         (m : Asset Q -> AssetPowerEvent Q) (action : PowerAction),
    let previous := old (out_volt (m self)) in
    let incoming := new (out_volt (m self)) in
    let r := _process_parent_volt_e now (mkEvent cls kw (Some m)) self in
    choose_power_action incoming (min_voltage (state self)) (status (state self))
      = Some action ->
    (exists ev,
       snd r = Ok ev
       /\ old (out_volt ev) == (if is_up (status (state self)) then previous else 0)
       /\ (previous == 0 -> new (out_volt ev) == incoming)
       /\ (incoming == 0 -> new (out_volt ev) == 0)
       /\ status (state (fst r)) <> status (state self))%Q.
Proof.
  intros now self cls kw m action previous incoming r Hpa.
  destruct (process_event_Q now self cls kw m) as (ev & Hev & Hv).
  cbv zeta in Hv. fold incoming previous in Hv. rewrite Hpa in Hv.
  destruct Hv as (Hold & Hnew).
  exists ev. split; [exact Hev|]. repeat split.
  - rewrite Hold. destruct (status (state self)); cbn; ring.
  - intros Hz. rewrite Hnew.
    assert (Hn : Qnum previous = 0).
    { unfold Qeq in Hz. cbn in Hz. lia. }
    rewrite Hn. cbn. ring.
  - intros Hz. rewrite Hnew, Hz. ring.
  - subst r. rewrite process_status. fold incoming. rewrite Hpa.
    unfold choose_power_action in Hpa.
    destruct (status (state self)), action; cbn in Hpa |- *;
      try (intro; discriminate); exfalso;
      rewrite ?andb_false_r, ?andb_true_r in Hpa;
      repeat match type of Hpa with
             | context [if ?b then _ else _] => destruct b
             end; discriminate Hpa.
Qed.

(** The theorem applies to the recovery of the asset that is Down at 0V. *)
Lemma outbound_voltages_on_transition_witness :
  choose_power_action (new (out_volt (mkAssetPowerEvent (mkPair None None)
                                        (mkPair 0%Q 120%Q) (mkPair None None))))
                      (min_voltage (state down_at_0)) (status (state down_at_0))
    = Some ActPowerUp
  /\
  (exists ev,
     snd (_process_parent_volt_e 0 (InputVoltageEvent InputVoltageUpEvent 120) down_at_0)
       = Ok ev
     /\ old (out_volt ev) == 0
     /\ (0 == 0 -> new (out_volt ev) == 120)
     /\ (120 == 0 -> new (out_volt ev) == 0)
     /\ status (state (fst (_process_parent_volt_e 0
                              (InputVoltageEvent InputVoltageUpEvent 120) down_at_0)))
          <> Down)%Q.
Proof.
  split; [reflexivity|].
  exact (outbound_voltages_on_transition 0 down_at_0 InputVoltageUpEvent
           [("new_in_volt"%string, 120%Q)]
           (fun target =>
              mkAssetPowerEvent (mkPair None None)
                                (mkPair (input_voltage (state target)) 120%Q)
                                (mkPair None None))
           ActPowerUp eq_refl).
Defined.

(** C4 as stated fails: on a power transition it gives the previous voltage
    as the new output voltage. The asset that is Down at 0V and receives 120V
    flips to Up, and the event for its children carries 120 as new output
    voltage, not the previous voltage 0. *)
Lemma outbound_new_voltage_not_previous :
  let self := down_at_0 in
  let r := _process_parent_volt_e 0 (InputVoltageEvent InputVoltageUpEvent 120%Q) self in
  status (state self) = Down
  /\ status (state (fst r)) = Up
  /\ exists ev, snd r = Ok ev
                /\ (new (out_volt ev) == 120)%Q
                /\ ~ (new (out_volt ev) == input_voltage (state self))%Q.
Proof.
  cbv zeta. split; [reflexivity|]. split; [reflexivity|].
  eexists. split; [reflexivity|]. split.
  - reflexivity.
  - cbn. unfold Qeq. cbn. discriminate.
Qed.

(** C1 (the code at the example of the specification). The asset with
    [min_voltage = 100] and [power_consumption = 240], Up at 120V with stored
    load 2, handles [InputVoltageDownEvent(new_in_volt=80)]: it goes Down and
    the event carries old load 2, but the new output voltage is
    [80 * (int(120) ^ 1) = 9680], so the new load of the event and the stored
    load are [240 / 9680] and not 0. *)
Theorem voltage_cascade_example_runs :
  let r := _process_parent_volt_e 0 (InputVoltageEvent InputVoltageDownEvent 80%Q)
                                  up_at_120 in
  let rf := _process_parent_volt_e 0 (InputVoltageEvent InputVoltageDownEvent 80%float)
                                   up_at_120_float in
  (status (state (fst r)) = Down
   /\ (exists ev old_l new_l,
         snd r = Ok ev
         /\ ev_load ev = mkPair (Some old_l) (Some new_l)
         /\ new (out_volt ev) == 9680
         /\ old_l == 2 /\ new_l == 3 # 121 /\ ~ new_l == 0)
   /\ load (state (fst r)) == 3 # 121
   /\ ~ load (state (fst r)) == 0)%Q
  /\ (status (state (fst rf)) = Down
      /\ (exists ev,
            snd rf = Ok ev
            /\ ev_load ev = mkPair (Some 2%float) (Some (240 / 9680)%float)
            /\ new (out_volt ev) = 9680%float)
      /\ load (state (fst rf)) = (240 / 9680)%float
      /\ PrimFloat.eqb (load (state (fst rf))) 0%float = false).
Proof.
  cbv zeta. split.
  - split; [reflexivity|]. split.
    + do 3 eexists. split; [reflexivity|]. split; [reflexivity|].
      repeat split; try reflexivity. cbn. unfold Qeq. cbn. discriminate.
    + split; [reflexivity|]. cbn. unfold Qeq. cbn. discriminate.
  - split; [reflexivity|]. split.
    + eexists. split; [reflexivity|]. split; reflexivity.
    + split; reflexivity.
Qed.

(** ** Child load events *)

Lemma handle_load_change_run {num : Type} `{PyNum num} (c : load_change num)
  (self : Asset num) :
  let l := load (state self) in
  let l' := match c with
            | Increase x => add l x
            | Decrease x => sub l x
            end in
  handle_load_change c self =
    (mkAsset (update_load l' (_state self)) (_state_reason self),
     Ok (mkLoadEventResult l l' (key (state self)))).
Proof. destruct c; reflexivity. Qed.

Lemma load_trace_computed_totals {num : Type} `{PyNum num}
  (changes : list (load_change num)) (self : Asset num) :
  map (fun a => load (state a)) (load_trace changes self)
  = computed_totals (load (state self)) changes.
Proof.
  revert self. induction changes as [|c rest IH]; intros self; [reflexivity|].
  cbn [load_trace computed_totals map]. rewrite IH.
  rewrite handle_load_change_run. destruct c; reflexivity.
Qed.

Lemma computed_totals_Q (changes : list (load_change Q)) (l0 : Q) :
  computed_totals l0 changes = running_totals l0 changes.
Proof.
  revert l0. induction changes as [|c rest IH]; intros l0; [reflexivity|].
  cbn [computed_totals running_totals]. rewrite IH. destruct c; reflexivity.
Qed.

(** C6 (amended). A child load increase stores the previous load plus
    [child_load], a decrease the previous load minus [child_load], computed
    in the load's number type with no clamp, and the handler returns that
    value as [new_load]. With exact arithmetic the stored load is therefore
    the running total (the initial load plus the increases minus the
    decreases so far), and it is at least 0 after every step of a sequence
    whose running total is never negative. *)
Theorem load_nonneg_when_totals_nonneg :
  (forall (num : Type) (P : PyNum num) (c : load_change num) (self : Asset num),
      let l := load (state self) in
      let l' := match c with
                | Increase x => add l x
                | Decrease x => sub l x
                end in
      load (state (fst (handle_load_change c self))) = l'
      /\ snd (handle_load_change c self)
         = Ok (mkLoadEventResult l l' (key (state self))))
  /\ (forall (num : Type) (P : PyNum num) (changes : list (load_change num))
             (self : Asset num),
        map (fun a => load (state a)) (load_trace changes self)
        = computed_totals (load (state self)) changes)
  /\ (forall (changes : list (load_change Q)) (self : Asset Q),
        Forall (fun t => 0 <= t)%Q (running_totals (load (state self)) changes) ->
        Forall (fun a => 0 <= load (state a))%Q (load_trace changes self)
        /\ map (fun a => load (state a)) (load_trace changes self)
           = running_totals (load (state self)) changes).
Proof.
  split; [|split].
  - intros num P c self l l'. rewrite handle_load_change_run. split; reflexivity.
  - intros. apply load_trace_computed_totals.
  - intros changes self Hb.
    assert (Ht : map (fun a => load (state a)) (load_trace changes self)
                 = running_totals (load (state self)) changes).
    { rewrite load_trace_computed_totals. apply computed_totals_Q. }
    split; [|exact Ht].
    rewrite <- Ht in Hb. rewrite Forall_map in Hb. exact Hb.
Qed.

(** The theorem applies to an increase of 3 followed by a decrease of 2 on
    an asset that stores no load. *)
Lemma load_nonneg_when_totals_nonneg_witness :
  Forall (fun t => 0 <= t)%Q
         (running_totals (load (state down_at_0)) [Increase 3%Q; Decrease 2%Q])
  /\ Forall (fun a => 0 <= load (state a))%Q
            (load_trace [Increase 3%Q; Decrease 2%Q] down_at_0)
  /\ map (fun a => load (state a)) (load_trace [Increase 3%Q; Decrease 2%Q] down_at_0)
     = running_totals (load (state down_at_0)) [Increase 3%Q; Decrease 2%Q].
Proof.
  assert (Hb : Forall (fun t => 0 <= t)%Q
                 (running_totals (load (state down_at_0)) [Increase 3%Q; Decrease 2%Q])).
  { repeat constructor; cbn; unfold Qle; cbn; lia. }
  split; [exact Hb|].
  exact (proj2 (proj2 load_nonneg_when_totals_nonneg)
           [Increase 3%Q; Decrease 2%Q] down_at_0 Hb).
Defined.

(** C6 as stated fails. An asset that stores load 0 and handles a child load
    decrease of 1 computes [new_load = 0 - 1], returns it and stores it. With
    Python floats the stored load becomes negative even on a sequence whose
    exact running totals are never negative: from 0.0, increases of 0.1 and
    0.7 followed by decreases of 0.7 and 0.1 end below 0. *)
Lemma load_negative_after_decrease :
  (exists a res,
     load_trace [Decrease 1%Q] down_at_0 = [a]
     /\ snd (handle_load_change (Decrease 1%Q) down_at_0) = Ok res
     /\ (load (state down_at_0) == 0)%Q
     /\ (new_load res == -1)%Q
     /\ (load (state a) == -1)%Q
     /\ ~ (0 <= load (state a))%Q)
  /\ (Forall (fun t => 0 <= t)%Q
             (running_totals (Q_of_float (load (state float_asset_load_0)))
                             (map exact_change float_changes))
      /\ exists a1 a2 a3 a4,
           load_trace float_changes float_asset_load_0 = [a1; a2; a3; a4]
           /\ PrimFloat.ltb (load (state a4)) 0%float = true).
Proof.
  split.
  - do 2 eexists. split; [reflexivity|]. split; [reflexivity|].
    split; [reflexivity|]. split; [reflexivity|]. split; [reflexivity|].
    cbn. unfold Qle. cbn. lia.
  - split.
    + repeat constructor; vm_compute; discriminate.
    + do 4 eexists. split; reflexivity.
Qed.

(** C9 (amended). For every asset with stored load L and every x, handling a
    child load increase of x and then a child load decrease of x leaves the
    stored load (L + x) - x as the number type computes it; over exact
    arithmetic that is L, the load stored before. *)
Theorem load_round_trip_exact :
  (forall (num : Type) (P : PyNum num) (self : Asset num) (x : num)
          (e1 e2 : Event num),
      let kw := [("child_load"%string, x)] in
      let r1 := on_load_increase e1 kw self in
      let r2 := on_load_decrease e2 kw (fst r1) in
      let l := load (state self) in
      load (state (fst r2)) = sub (add l x) x
      /\ snd r1 = Ok (mkLoadEventResult l (add l x) (key (state self)))
      /\ snd r2 = Ok (mkLoadEventResult (add l x) (sub (add l x) x) (key (state self))))
  /\ (forall (self : Asset Q) (x : Q) (e1 e2 : Event Q),
        let kw := [("child_load"%string, x)] in
        let r1 := on_load_increase e1 kw self in
        let r2 := on_load_decrease e2 kw (fst r1) in
        load (state (fst r2)) == load (state self))%Q.
Proof.
  split.
  - intros. subst kw r1 r2 l. repeat split.
  - intros self x e1 e2 kw r1 r2. subst kw r1 r2. cbn. ring.
Qed.

(** C9 as stated fails for Python floats: an asset storing load 1.0 that
    handles an increase and then a decrease of 2^53 stores load 0.0. *)
Lemma load_round_trip_drifts_float :
  let x := 9007199254740992%float in
  let kw := [("child_load"%string, x)] in
  let self := float_asset_load_1 in
  let r1 := on_load_increase (ChildLoadEvent ChildAssetLoadIncreased x) kw self in
  let r2 := on_load_decrease (ChildLoadEvent ChildAssetLoadDecreased x) kw (fst r1) in
  load (state self) = 1%float
  /\ load (state (fst r1)) = 9007199254740992%float
  /\ load (state (fst r2)) = 0%float
  /\ PrimFloat.eqb (load (state (fst r2))) (load (state self)) = false.
Proof. cbv zeta. repeat split. Qed.

(** ** Delivery of a voltage event *)

Lemma account_load_input_voltage {num : Type} `{PyNum num}
  (ev : AssetPowerEvent num) (cur : Asset num) :
  input_voltage (state (fst (account_load ev cur))) = input_voltage (state cur).
Proof.
  rewrite account_load_run. cbn.
  match goal with |- context [if ?b then _ else _] => destruct b end; reflexivity.
Qed.

(** The transition handler leaves the stored input voltage alone. *)
Lemma process_input_voltage {num : Type} `{PyNum num} (now : Z) (self : Asset num)
  (e : Event num) :
  input_voltage (state (fst (_process_parent_volt_e now e self)))
  = input_voltage (state self).
Proof.
  destruct e as [cls kw [m|]]; [|reflexivity].
  rewrite process_run. cbv zeta.
  set (was := status (state self)).
  set (ev0 := set_state_old _ _).
  set (pa := choose_power_action _ _ _).
  destruct (reset_out_volt_frame now pa was ev0 self) as (_ & _ & Hv).
  destruct (reset_out_volt now pa was ev0 self) as [s1 [e1|e]]; cbn [fst] in *.
  - rewrite account_load_input_voltage. exact Hv.
  - exact Hv.
Qed.

(** What the transition handler computes from a voltage event: the event for
    the children and the stored load, from the asset as it is when the
    handler runs. *)
Lemma process_voltage_event {num : Type} `{PyNum num} (now : Z) (self : Asset num)
  (cls : event_class) (new_in_volt : num) :
  let stored := input_voltage (state self) in
  let was := status (state self) in
  let pa := choose_power_action new_in_volt (min_voltage (state self)) was in
  let r := _process_parent_volt_e now (InputVoltageEvent cls new_in_volt) self in
  match snd r with
  | Ok ev =>
      old (ev_state ev) = Some was
      /\ old (out_volt ev)
         = match pa with
           | None => stored
           | Some _ => mul stored (of_int (status_int was))
           end
      /\ match pa with
         | None => new (out_volt ev) = new_in_volt /\ new (ev_state ev) = None
         | Some ActPowerOff => new (ev_state ev) = Some Down
         | Some ActPowerUp => new (ev_state ev) = Some Up
         end
      /\ exists old_c new_c,
           ev_load ev = mkPair (Some old_c) (Some new_c)
           /\ calc_load self (old (out_volt ev)) = Ok old_c
           /\ calc_load self (new (out_volt ev)) = Ok new_c
           /\ load (state (fst r)) =
                if negb (num_eqb new_c old_c)
                then add (sub (load (state self)) old_c) new_c
                else load (state self)
  | Raise x => pa <> None /\ to_int stored = Raise x
  end.
Proof.
  intros stored was pa r. subst r. unfold InputVoltageEvent.
  rewrite process_run. cbv zeta. fold was.
  set (ev0 := set_state_old (Some was) _).
  change (choose_power_action (new (out_volt ev0)) (min_voltage (state self)) was) with pa.
  destruct (reset_out_volt_frame now pa was ev0 self) as (Hl & Hp & _).
  revert Hl Hp. unfold reset_out_volt.
  destruct pa as [a|].
  - unfold bind, lift, ret.
    assert (Ha : exists s1, run_power_action now a self
                            = (s1, Ok match a with ActPowerOff => Down | ActPowerUp => Up end)).
    { destruct a; eexists; reflexivity. }
    destruct Ha as (s1 & Ha). rewrite Ha.
    cbn [ev0 set_state_old out_volt old new].
    fold stored.
    destruct (to_int stored) as [i|x]; cbn [fst snd]; intros Hl Hp.
    + rewrite account_load_run. cbn [fst snd].
      split; [reflexivity|]. split; [reflexivity|].
      split; [destruct a; reflexivity|].
      rewrite !calc_load_ok. rewrite Hp.
      do 2 eexists. split; [reflexivity|]. split; [reflexivity|]. split; [reflexivity|].
      match goal with |- context [negb ?b] => destruct (negb b) end;
        cbn; rewrite ?Hl; reflexivity.
    + split; [discriminate|reflexivity].
  - unfold ret. cbn [fst snd]. intros _ _.
    rewrite account_load_run. cbn [fst snd].
    split; [reflexivity|]. split; [reflexivity|].
    split; [split; reflexivity|].
    rewrite !calc_load_ok.
    do 2 eexists. split; [reflexivity|]. split; [reflexivity|]. split; [reflexivity|].
    match goal with |- context [negb ?b] => destruct (negb b) end; reflexivity.
Qed.

(** C7. When a voltage event is delivered to an asset, the handler that
    computes the transition runs first, at priority 0, on the asset as it was
    before the event: the old output voltage, the old load component and the
    update of the stored load it computes come from the input voltage stored
    before the event, not from the [new_in_volt] the event brings. The handler
    that commits [new_in_volt] runs after it, at priority -1; were it to run
    first, the transition handler would compute from [new_in_volt]. *)
Theorem transition_reads_stored_voltage :
  (forall (num : Type) (P : PyNum num) (now : Z) (self : Asset num)
          (up : bool) (new_in_volt : num),
    let e := InputVoltageEvent (voltage_class up) new_in_volt in
    let r := _process_parent_volt_e now e self in
    let stored := input_voltage (state self) in
    let was := status (state self) in
    let pa := choose_power_action new_in_volt (min_voltage (state self)) was in
    map (fun h => (h_name h, h_priority h)) (subscribers (num := num) (name e))
      = [(transition_handler up, 0); ("detect_input_voltage"%string, -1)]
    /\ dispatch now e self
       = (mkAsset (update_input_voltage new_in_volt (_state (fst r)))
                  (_state_reason (fst r)),
          [(transition_handler up,
            match snd r with
            | Ok ev => Ok (VPowerEvent ev)
            | Raise x => Raise x
            end);
           ("detect_input_voltage"%string, Ok VNone)])
    /\ (exists ev0,
          call_get_next_power_event e self = Ok ev0
          /\ old (out_volt ev0) = input_voltage (state self)
          /\ new (out_volt ev0) = new_in_volt)
    /\ input_voltage (state (fst r)) = input_voltage (state self)
    /\ input_voltage (state (fst (dispatch now e self))) = new_in_volt
    /\ (exists ev1,
          call_get_next_power_event e (fst (detect_input_voltage e (ev_kwargs e) self))
            = Ok ev1
          /\ old (out_volt ev1) = new_in_volt)
    /\ match snd r with
       | Ok ev =>
           old (ev_state ev) = Some was
           /\ old (out_volt ev)
              = match pa with
                | None => stored
                | Some _ => mul stored (of_int (status_int was))
                end
           /\ match pa with
              | None => new (out_volt ev) = new_in_volt /\ new (ev_state ev) = None
              | Some ActPowerOff => new (ev_state ev) = Some Down
              | Some ActPowerUp => new (ev_state ev) = Some Up
              end
           /\ exists old_c new_c,
                ev_load ev = mkPair (Some old_c) (Some new_c)
                /\ calc_load self (old (out_volt ev)) = Ok old_c
                /\ calc_load self (new (out_volt ev)) = Ok new_c
                /\ load (state (fst r)) =
                     if negb (num_eqb new_c old_c)
                     then add (sub (load (state self)) old_c) new_c
                     else load (state self)
       | Raise x => pa <> None /\ to_int stored = Raise x
       end
    /\ status (state (fst r))
       = match pa with
         | Some ActPowerOff => Down
         | Some ActPowerUp => Up
         | None => was
         end)
  /\ (let e := InputVoltageEvent InputVoltageDownEvent 115%Q in
      (exists ev,
         snd (dispatch 0 e up_at_120)
           = [("on_parent_volt_down"%string, Ok (VPowerEvent ev));
              ("detect_input_voltage"%string, Ok VNone)]
         /\ out_volt ev = mkPair 120%Q 115%Q
         /\ ev_load ev = mkPair (Some (240 / 120)%Q) (Some (240 / 115)%Q)
         /\ (load (state (fst (dispatch 0 e up_at_120))) == 2 - 240 / 120 + 240 / 115)%Q)
      /\ (exists ev,
            snd (commit_first 0 e up_at_120)
              = [("detect_input_voltage"%string, Ok VNone);
                 ("on_parent_volt_down"%string, Ok (VPowerEvent ev))]
            /\ out_volt ev = mkPair 115%Q 115%Q
            /\ ev_load ev = mkPair (Some (240 / 115)%Q) (Some (240 / 115)%Q)
            /\ (load (state (fst (commit_first 0 e up_at_120))) == 2)%Q)).
Proof.
  split.
  - intros num P now self up new_in_volt e r stored was pa.
    assert (Hd : dispatch now e self
         = (mkAsset (update_input_voltage new_in_volt (_state (fst r)))
                    (_state_reason (fst r)),
            [(transition_handler up,
              match snd r with
              | Ok ev => Ok (VPowerEvent ev)
              | Raise x => Raise x
              end);
             ("detect_input_voltage"%string, Ok VNone)])).
    { unfold dispatch. subst e r. destruct up;
        cbn -[_process_parent_volt_e];
        unfold returning, on_parent_volt_up, on_parent_volt_down, bind, ret;
        match goal with
        | |- context [_process_parent_volt_e ?n ?ev ?s] =>
            destruct (_process_parent_volt_e n ev s) as [s1 [ev1|x]]
        end; reflexivity. }
    split; [destruct up; reflexivity|].
    split; [exact Hd|].
    split; [eexists; repeat split|].
    split; [apply process_input_voltage|].
    split; [rewrite Hd; reflexivity|].
    split; [eexists; repeat split|].
    split; [apply process_voltage_event|].
    subst r e. unfold InputVoltageEvent. rewrite process_status. reflexivity.
  - cbv zeta. split.
    + eexists. split; [reflexivity|]. split; [reflexivity|]. split; reflexivity.
    + eexists. split; [reflexivity|]. split; [reflexivity|]. split; reflexivity.
Qed.

(** ** The threshold evaluator *)

Lemma dict_get_in_keys {V : Type} (d : dict V) (k : string) (v : V) :
  dict_get d k = Some v -> In k (keys d).
Proof.
  induction d as [|[k' v'] d IH]; cbn; [discriminate|].
  destruct (String.eqb_spec k' k); intros Hg; [left; assumption|right; auto].
Qed.

Lemma counter_triggersb_spec (row cs : dict Z) (p : string) :
  counter_triggersb row cs p = true <-> counter_triggers row cs p.
Proof.
  unfold counter_triggersb, counter_triggers. split.
  - destruct (dict_get cs p) as [m|]; [|discriminate].
    destruct (dict_get row p) as [t|]; [|discriminate].
    intros Hb. apply andb_true_iff in Hb. destruct Hb as [Hle Hne].
    exists m, t. repeat split; lia.
  - intros (m & t & Hm & Ht & Hle & Hne). rewrite Hm, Ht.
    apply andb_true_iff. split; [lia|]. apply negb_true_iff. lia.
Qed.

Lemma status_triggersb_spec (s_conf : dict (dict Z)) (cs : dict Z) (s : string) :
  status_triggersb s_conf cs s = true <-> status_triggers s_conf cs s.
Proof.
  unfold status_triggersb, status_triggers. split.
  - destruct (dict_get s_conf s) as [row|]; [|discriminate].
    intros Hb. apply existsb_exists in Hb. destruct Hb as (p & _ & Hp).
    exists row. split; [reflexivity|]. exists p. apply counter_triggersb_spec, Hp.
  - intros (row & Hr & p & Hp). rewrite Hr. apply existsb_exists.
    exists p. split; [|apply counter_triggersb_spec, Hp].
    destruct Hp as (m & _ & Hm & _). eapply dict_get_in_keys, Hm.
Qed.

(** The inner loop on a row that gives every threshold it is asked for. *)
Lemma for_props_run (s_conf : dict (dict Z)) (cs : dict Z) (status optimal : string)
  (row : dict Z) (self : StorCLIEmulator) (props : list string) :
  dict_get s_conf status = Some row ->
  (forall p, In p props ->
             exists m t, dict_get cs p = Some m /\ dict_get row p = Some t) ->
  for_props s_conf cs status optimal props self =
    (self,
     Ok (if negb (String.eqb status optimal)
            && existsb (counter_triggersb row cs) props
         then Some status else None)).
Proof.
  intros Hrow. induction props as [|p rest IH]; intros Hall.
  - cbn. rewrite andb_false_r. reflexivity.
  - destruct (Hall p (or_introl eq_refl)) as (m & t & Hm & Ht).
    assert (IH' := IH (fun q Hq => Hall q (or_intror Hq))).
    cbn [for_props existsb]. unfold bind, lift, getitem.
    rewrite Hm, Hrow, Ht. unfold counter_triggersb at 1. rewrite Hm, Ht.
    destruct (String.eqb status optimal); cbn [negb andb] in *.
    + rewrite !andb_false_r. exact IH'.
    + rewrite !andb_true_r.
      destruct ((t <=? m) && negb (t =? -1)); [reflexivity|exact IH'].
Qed.

Lemma in_keys_dict_get {V : Type} (d : dict V) (k : string) :
  In k (keys d) -> exists v, dict_get d k = Some v.
Proof.
  induction d as [|[k' v'] d IH]; cbn; [contradiction|].
  intros [Hk|Hk]; destruct (String.eqb_spec k' k); eauto; contradiction.
Qed.

Lemma for_statuses_run (s_conf : dict (dict Z)) (cs : dict Z) (optimal : string)
  (self : StorCLIEmulator) (statuses : list string) :
  thresholds_given s_conf cs ->
  incl statuses (keys s_conf) ->
  for_statuses s_conf cs optimal statuses self =
    (self,
     Ok (find (fun s => negb (String.eqb s optimal) && status_triggersb s_conf cs s)
              statuses)).
Proof.
  intros Hg. induction statuses as [|s rest IH]; intros Hin; [reflexivity|].
  destruct (in_keys_dict_get s_conf s (Hin s (or_introl eq_refl))) as (row & Hrow).
  cbn [for_statuses find]. unfold bind at 1.
  rewrite (for_props_run s_conf cs s optimal row self (keys cs) Hrow).
  - unfold status_triggersb at 1. rewrite Hrow.
    destruct (negb (String.eqb s optimal)
              && existsb (counter_triggersb row cs) (keys cs)).
    + reflexivity.
    + apply IH. intros q Hq. apply Hin. right. exact Hq.
  - intros p Hp.
    destruct (in_keys_dict_get cs p Hp) as (m & Hm).
    destruct (Hg s p (Hin s (or_introl eq_refl)) Hp) as (row' & t & Hr' & Ht).
    rewrite Hrow in Hr'. injection Hr' as <-. eauto.
Qed.

(** The evaluator returns the first status of the table, other than
    [optimal], that triggers, and [optimal] when there is none. *)
Lemma get_state_from_config_run (self : StorCLIEmulator) (config_entry : string)
  (s_conf : dict (dict Z)) (cs : dict Z) (optimal : string) :
  dict_get (stateConfig self) config_entry = Some s_conf ->
  thresholds_given s_conf cs ->
  _get_state_from_config config_entry cs optimal self =
    (self,
     Ok (match find (fun s => negb (String.eqb s optimal)
                              && status_triggersb s_conf cs s) (keys s_conf) with
         | Some s => s
         | None => optimal
         end)).
Proof.
  intros Hc Hg. unfold _get_state_from_config, bind, get_self, lift, getitem.
  rewrite Hc. rewrite for_statuses_run by (trivial; apply incl_refl).
  destruct (find _ _); reflexivity.
Qed.

Lemma find_first {A : Type} (f : A -> bool) (pre post : list A) (x : A) :
  f x = true -> (forall y, In y pre -> f y = false) ->
  find f (pre ++ x :: post) = Some x.
Proof.
  intros Hx. induction pre as [|y pre IH]; intros Hpre; cbn.
  - rewrite Hx. reflexivity.
  - rewrite (Hpre y (or_introl eq_refl)). apply IH.
    intros z Hz. apply Hpre. right. exact Hz.
Qed.

Lemma find_none_all {A : Type} (f : A -> bool) (l : list A) :
  (forall y, In y l -> f y = false) -> find f l = None.
Proof.
  induction l as [|y l IH]; intros Hl; cbn; [reflexivity|].
  rewrite (Hl y (or_introl eq_refl)). apply IH. intros z Hz. apply Hl. right. exact Hz.
Qed.

Lemma skipped_status (s_conf : dict (dict Z)) (cs : dict Z) (optimal s : string) :
  s = optimal \/ ~ status_triggers s_conf cs s ->
  negb (String.eqb s optimal) && status_triggersb s_conf cs s = false.
Proof.
  intros [->|Hn].
  - rewrite String.eqb_refl. reflexivity.
  - destruct (status_triggersb s_conf cs s) eqn:E.
    + apply status_triggersb_spec in E. contradiction.
    + apply andb_false_r.
Qed.

(** C5. Given an ordered severity table, the measured counters and the name
    of the optimal status, the evaluator returns the first status in declared
    order, the optimal status skipped, that has some counter whose measured
    value reaches its threshold and whose threshold is not -1; it returns the
    optimal name when no status matches on any counter; a status whose
    thresholds are all -1 is never returned, whatever was measured. In
    particular the table [{Critical: {errors: 5}, Degraded: {errors: 1}}]
    with [errors = 5] gives Critical, not Degraded. *)
Theorem threshold_first_match :
  forall (self : StorCLIEmulator) (config_entry : string)
         (s_conf : dict (dict Z)) (current_state : dict Z) (optimal : string),
    dict_get (stateConfig self) config_entry = Some s_conf ->
    thresholds_given s_conf current_state ->
    let result := snd (_get_state_from_config config_entry current_state optimal self) in
    (forall pre status post,
        keys s_conf = pre ++ status :: post ->
        status <> optimal ->
        status_triggers s_conf current_state status ->
        (forall s, In s pre -> s = optimal \/ ~ status_triggers s_conf current_state s) ->
        result = Ok status)
    /\ ((forall s, In s (keys s_conf) ->
                   s = optimal \/ ~ status_triggers s_conf current_state s) ->
        result = Ok optimal)
    /\ (forall status row,
          status <> optimal ->
          dict_get s_conf status = Some row ->
          (forall prop threshold, dict_get row prop = Some threshold -> threshold = -1) ->
          result <> Ok status)
    /\ snd (_get_state_from_config "physicalDrive" [("errors"%string, 5)] "Optl"
                                   example_emulator) = Ok "Critical"%string.
Proof.
  intros self config_entry s_conf cs optimal Hc Hg result.
  subst result. rewrite (get_state_from_config_run self config_entry s_conf cs optimal Hc Hg).
  cbn [snd]. repeat split.
  - intros pre status post Hk Hne Ht Hpre. rewrite Hk.
    rewrite (find_first _ pre post status); [reflexivity| |].
    + apply andb_true_iff. split.
      * apply negb_true_iff, String.eqb_neq, Hne.
      * apply status_triggersb_spec, Ht.
    + intros y Hy. apply skipped_status, Hpre, Hy.
  - intros Hall. rewrite find_none_all; [reflexivity|].
    intros y Hy. apply skipped_status, Hall, Hy.
  - intros status row Hne Hrow Hsent Hres.
    destruct (find _ (keys s_conf)) as [s|] eqn:Ef.
    + injection Hres as ->. apply find_some in Ef. destruct Ef as [_ Ef].
      apply andb_true_iff in Ef. destruct Ef as [_ Ef].
      apply status_triggersb_spec in Ef.
      destruct Ef as (row' & Hr' & p & m & t & _ & Ht & _ & Hne1).
      rewrite Hrow in Hr'. injection Hr' as <-.
      apply Hne1. exact (Hsent p t Ht).
    + injection Hres as ->. apply Hne. reflexivity.
Qed.

(** The theorem applies to the example table, with [errors = 5] measured:
    Critical is declared first and triggers, so it is the status returned. *)
Lemma threshold_first_match_witness :
  dict_get (stateConfig example_emulator) "physicalDrive" = Some example_table
  /\ thresholds_given example_table [("errors"%string, 5)]
  /\ keys example_table = [] ++ "Critical"%string :: ["Degraded"%string]
  /\ status_triggers example_table [("errors"%string, 5)] "Critical"
  /\ status_triggers example_table [("errors"%string, 5)] "Degraded"
  /\ snd (_get_state_from_config "physicalDrive" [("errors"%string, 5)] "Optl"
                                 example_emulator) = Ok "Critical"%string.
Proof.
  assert (Hg : thresholds_given example_table [("errors"%string, 5)]).
  { intros s p Hs Hp. cbn in Hs, Hp.
    destruct Hp as [<-|[]].
    destruct Hs as [<-|[<-|[]]]; do 2 eexists; split; reflexivity. }
  assert (Hc : status_triggers example_table [("errors"%string, 5)] "Critical").
  { exists [("errors"%string, 5)]. split; [reflexivity|].
    exists "errors"%string, 5, 5. repeat split; discriminate. }
  assert (Hd : status_triggers example_table [("errors"%string, 5)] "Degraded").
  { exists [("errors"%string, 1)]. split; [reflexivity|].
    exists "errors"%string, 5, 1. repeat split; discriminate. }
  split; [reflexivity|]. split; [exact Hg|]. split; [reflexivity|].
  split; [exact Hc|]. split; [exact Hd|].
  refine (proj1 (threshold_first_match example_emulator "physicalDrive" example_table
                   [("errors"%string, 5)] "Optl" eq_refl Hg)
                [] "Critical"%string ["Degraded"%string] eq_refl _ Hc _).
  - discriminate.
  - intros s [].
Defined.

(** ** Further properties of the code *)

(** X2. The evaluator reads [s_conf[status][prop]] before it compares the
    status with [optimal]: when the first row of the table has no threshold
    for the first measured counter, the evaluator raises [KeyError] for that
    counter, whatever the optimal status is, the status of that row included. *)
Theorem missing_threshold_raises :
  forall (self : StorCLIEmulator) (config_entry status optimal prop : string)
         (row : dict Z) (rest : dict (dict Z)) (measured : Z) (counters : dict Z),
    dict_get (stateConfig self) config_entry = Some ((status, row) :: rest) ->
    dict_get row prop = None ->
    snd (_get_state_from_config config_entry ((prop, measured) :: counters) optimal self)
    = Raise (KeyError prop).
Proof.
  intros self config_entry status optimal prop row rest measured counters Hc Hrow.
  unfold _get_state_from_config, bind, get_self, lift, getitem at 1.
  rewrite Hc. cbn [keys map fst for_statuses for_props].
  unfold bind, lift, getitem. cbn [dict_get].
  rewrite !String.eqb_refl, Hrow. reflexivity.
Qed.

(** The theorem applies to a table whose Optl row is empty, with [Optl] as
    the optimal status. *)
Lemma missing_threshold_raises_witness :
  dict_get (stateConfig (mkStorCLIEmulator
                           [("virtualDrive"%string,
                             [("Optl"%string, []);
                              ("Dgrd"%string, [("errors"%string, 5)])])]))
           "virtualDrive"
    = Some [("Optl"%string, []); ("Dgrd"%string, [("errors"%string, 5)])]
  /\ dict_get ([] : dict Z) "errors" = None
  /\ snd (_get_state_from_config "virtualDrive" [("errors"%string, 7)] "Optl"
            (mkStorCLIEmulator
               [("virtualDrive"%string,
                 [("Optl"%string, []);
                  ("Dgrd"%string, [("errors"%string, 5)])])]))
     = Raise (KeyError "errors").
Proof.
  split; [reflexivity|]. split; [reflexivity|].
  exact (missing_threshold_raises
           (mkStorCLIEmulator
              [("virtualDrive"%string,
                [("Optl"%string, []); ("Dgrd"%string, [("errors"%string, 5)])])])
           "virtualDrive" "Optl" "Optl" "errors" []
           [("Dgrd"%string, [("errors"%string, 5)])] 7 [] eq_refl eq_refl).
Defined.

(** * The storcli emulator beyond the threshold evaluator *)

(** ** Strings *)

Lemma length_append (a b : string) :
  String.length (a ++ b) = (String.length a + String.length b)%nat.
Proof. induction a as [|c a IH]; cbn; [reflexivity|]. rewrite IH. reflexivity. Qed.

Lemma append_nil_r (a : string) : (a ++ "")%string = a.
Proof. induction a as [|c a IH]; cbn; [reflexivity|]. rewrite IH. reflexivity. Qed.

Lemma append_assoc (a b c : string) : ((a ++ b) ++ c)%string = (a ++ b ++ c)%string.
Proof. induction a as [|x a IH]; cbn; [reflexivity|]. rewrite IH. reflexivity. Qed.

Lemma length_str_mul_char (c : ascii) (n : nat) :
  String.length (str_mul (String c EmptyString) n) = n.
Proof. induction n as [|n IH]; cbn; [reflexivity|]. rewrite IH. reflexivity. Qed.

Lemma length_ljust (s : string) (width : nat) :
  String.length (ljust s width) = Nat.max (String.length s) width.
Proof.
  unfold ljust. rewrite length_append, length_str_mul_char. lia.
Qed.

Lemma split_on_nonempty (sep : ascii) (s : string) : split_on sep s <> [].
Proof.
  induction s as [|c s IH]; cbn; [discriminate|].
  destruct (Ascii.eqb c sep); [discriminate|].
  destruct (split_on sep s); discriminate.
Qed.

Lemma split_on_sep_free (sep : ascii) (s : string) :
  Forall (sep_free sep) (split_on sep s).
Proof.
  induction s as [|c s IH]; cbn.
  - repeat constructor.
  - destruct (Ascii.eqb_spec c sep) as [->|Hne].
    + constructor; [exact I|exact IH].
    + destruct (split_on sep s) as [|piece rest].
      * repeat constructor. exact Hne.
      * inversion IH; subst. constructor; [split; assumption|assumption].
Qed.

Lemma join_cons (sep x : string) (l : list string) :
  l <> [] -> join sep (x :: l) = (x ++ sep ++ join sep l)%string.
Proof. destruct l; [contradiction|reflexivity]. Qed.

(** Joining the pieces of a split gives the text back. *)
Lemma join_split_on (sep : ascii) (s : string) :
  join (String sep EmptyString) (split_on sep s) = s.
Proof.
  induction s as [|c s IH]; cbn [split_on]; [reflexivity|].
  pose proof (split_on_nonempty sep s) as Hne.
  destruct (Ascii.eqb_spec c sep) as [->|Hc].
  - rewrite join_cons by exact Hne. rewrite IH. reflexivity.
  - destruct (split_on sep s) as [|piece rest]; [contradiction|].
    destruct rest as [|r rest'].
    + cbn in *. rewrite IH. reflexivity.
    + rewrite join_cons by discriminate.
      rewrite join_cons in IH by discriminate.
      cbn [append] in IH |- *. rewrite IH. reflexivity.
Qed.

Lemma split_on_append_free (sep : ascii) (x s : string) :
  sep_free sep x ->
  split_on sep (x ++ String sep s) = x :: split_on sep s.
Proof.
  induction x as [|c x IH]; cbn; intros Hx.
  - rewrite Ascii.eqb_refl. reflexivity.
  - destruct Hx as [Hc Hx].
    destruct (Ascii.eqb_spec c sep); [contradiction|].
    rewrite IH by exact Hx. reflexivity.
Qed.

Lemma split_on_free (sep : ascii) (x : string) :
  sep_free sep x -> split_on sep x = [x].
Proof.
  induction x as [|c x IH]; cbn; intros Hx; [reflexivity|].
  destruct Hx as [Hc Hx].
  destruct (Ascii.eqb_spec c sep); [contradiction|].
  rewrite IH by exact Hx. reflexivity.
Qed.

(** Splitting a join of separator-free pieces gives the pieces back. *)
Lemma split_on_join (sep : ascii) (l : list string) :
  l <> [] -> Forall (sep_free sep) l ->
  split_on sep (join (String sep EmptyString) l) = l.
Proof.
  induction l as [|x l IH]; intros Hne Hl; [contradiction|].
  inversion Hl as [|? ? Hx Hl']; subst.
  destruct l as [|y l'].
  - cbn. apply split_on_free, Hx.
  - rewrite join_cons by discriminate. cbn [append].
    rewrite split_on_append_free by exact Hx.
    rewrite IH; [reflexivity|discriminate|exact Hl'].
Qed.

(** X4. The date format change of [_strcli_ctrl_cachevault] is its own
    inverse: done twice, it gives back the date it started from, whatever
    the text. *)
Theorem storcli_mfg_date_involutive :
  forall mfg_date : string,
    storcli_mfg_date (storcli_mfg_date mfg_date) = mfg_date.
Proof.
  intros d. unfold storcli_mfg_date.
  rewrite split_on_join.
  - rewrite rev_involutive. apply join_split_on.
  - intros Hr. apply (split_on_nonempty "/"%char d).
    apply (f_equal (@rev string)) in Hr. rewrite rev_involutive in Hr. exact Hr.
  - apply Forall_rev, split_on_sep_free.
Qed.

(** X5. A date made of parts without a slash, joined by slashes, is printed
    with the parts in reverse order: [year/month/day] becomes
    [day/month/year]; a date without a slash is printed as it is. *)
Theorem storcli_mfg_date_reverses_parts :
  forall parts : list string,
    parts <> [] ->
    Forall (sep_free "/"%char) parts ->
    storcli_mfg_date (join "/" parts) = join "/" (rev parts).
Proof.
  intros parts Hne Hfree. unfold storcli_mfg_date.
  rewrite split_on_join by assumption. reflexivity.
Qed.

Lemma storcli_mfg_date_reverses_parts_witness :
  ["2016"; "11"; "04"]%string <> []
  /\ Forall (sep_free "/"%char) ["2016"; "11"; "04"]%string
  /\ storcli_mfg_date "2016/11/04" = "04/11/2016"%string.
Proof.
  assert (Hne : ["2016"; "11"; "04"]%string <> []) by discriminate.
  assert (Hf : Forall (sep_free "/"%char) ["2016"; "11"; "04"]%string).
  { repeat constructor; discriminate. }
  split; [exact Hne|]. split; [exact Hf|].
  exact (storcli_mfg_date_reverses_parts ["2016"; "11"; "04"]%string Hne Hf).
Defined.

(** ** The command loop *)

Lemma last_char_nonempty (c : ascii) (s : string) :
  exists x, last_char (String c s) = Done (String x EmptyString).
Proof.
  revert c. induction s as [|d s IH]; intros c.
  - exists c. reflexivity.
  - destruct (IH d) as (x & Hx). exists x. exact Hx.
Qed.

Lemma prefix_c_inv (s : string) :
  String.prefix "/c" s = true -> exists r, s = String "/" (String "c" r).
Proof.
  intros Hp. apply String.prefix_correct in Hp.
  destruct s as [|a [|b r]]; cbn in Hp; try discriminate Hp.
  injection Hp as -> -> _. eexists. reflexivity.
Qed.

Lemma prefix_c_last (s : string) :
  String.prefix "/c" s = true -> exists x, last_char s = Done (String x EmptyString).
Proof.
  intros Hp. destruct (prefix_c_inv s Hp) as (r & ->). apply last_char_nonempty.
Qed.

Section CommandLoopProperties.

Context {World Exc : Type}.
Variable emulator : methods World Exc.

Lemma say_ok (w : World) (text : string) :
  text = EmptyString \/ text = "Version 0.01"%string ->
  pass_ok emulator w (say text w).
Proof.
  intros Ht. cbn. split; [reflexivity|]. split; [reflexivity|]. right. split; trivial.
Qed.

Lemma call_method_ok (w : World) (o : storcli_output) :
  pass_ok emulator w (call_method emulator o w).
Proof.
  unfold call_method, pass_ok.
  destruct (emulator o w) as [w' [text|x]] eqn:E; cbn.
  - split; [reflexivity|]. split; [reflexivity|]. left. exists o. exact E.
  - exists o. exact E.
Qed.

Lemma with_controller_ok (w : World) (s : string) (f : string -> storcli_output) :
  String.prefix "/c" s = true ->
  pass_ok emulator w (with_controller emulator s f w).
Proof.
  intros Hp. destruct (prefix_c_last s Hp) as (x & Hx).
  unfold with_controller. rewrite Hx. apply call_method_ok.
Qed.

Lemma reply_to_accepted (argv : list string) (w : World) :
  accepted argv = true -> pass_ok emulator w (reply_to emulator argv w).
Proof.
  intros Ha.
  destruct argv as [|a0 [|a1 [|a2 [|a3 [|a4 [|a5 [|a6 rest]]]]]]];
    cbn [accepted] in Ha; try discriminate Ha; cbn [reply_to]; try rewrite Ha;
    repeat match goal with
           | |- pass_ok _ _ ((if ?b then _ else _) _) => destruct b
           end;
    try (apply with_controller_ok; exact Ha);
    try apply call_method_ok;
    try (apply say_ok; auto; fail).
  apply say_ok. destruct (String.eqb a1 "--version"); auto.
Qed.

End CommandLoopProperties.

(** X6. The loop raises [IndexError] on the empty [argv] and answers every
    other one unless the method it calls raises: that exception leaves the
    loop and nothing is sent. For an accepted shape (two or three words, or
    four to six words of which the second starts with [/c]) the reply has
    status 0, an empty [stderr] and as [stdout] the text the method returned,
    or the default text when no command was recognised; every other [argv]
    gets the usage text with status 1 and no method is called. *)
Theorem reply_to_status :
  forall (World Exc : Type) (emulator : methods World Exc)
         (argv : list string) (w : World),
    match reply_to emulator argv w with
    | (w', Returns r) =>
        exists argv0 rest,
          argv = argv0 :: rest
          /\ if accepted argv
             then reply_status r = 0 /\ stderr r = EmptyString
                  /\ ((exists o, emulator o w = (w', Returns (stdout r)))
                      \/ (w' = w /\ (stdout r = EmptyString
                                     \/ stdout r = "Version 0.01"%string)))
             else w' = w
                  /\ r = mkReply EmptyString ("Usage: " ++ argv0 ++ " --version") 1
    | (w', Raises (InLoop e)) => argv = [] /\ e = IndexError /\ w' = w
    | (w', Raises (InMethod x)) =>
        accepted argv = true /\ exists o, emulator o w = (w', Raises x)
    end.
Proof.
  intros World Exc emulator argv w.
  destruct (accepted argv) eqn:Ha.
  - pose proof (reply_to_accepted emulator argv w Ha) as Hp.
    destruct (reply_to emulator argv w) as [w' [r|[e|x]]]; cbn in Hp.
    + destruct argv as [|a0 rest]; [discriminate Ha|]. exists a0, rest.
      split; [reflexivity|exact Hp].
    + contradiction.
    + split; [reflexivity|exact Hp].
  - destruct argv as [|a0 [|a1 [|a2 [|a3 [|a4 [|a5 [|a6 rest]]]]]]];
      cbn [accepted] in Ha; try discriminate Ha; cbn [reply_to]; try rewrite Ha;
      cbn; try (repeat split; fail);
      do 2 eexists; repeat split.
Qed.

(** X7. A controller command addresses the controller named by the last
    character of its second word and by nothing else: two second words that
    start with [/c] and end in the same character are handled alike, and
    [/cN show all] is answered by [_strcli_ctrl_info] called for that
    character. *)
Theorem controller_is_last_character :
  forall (World Exc : Type) (emulator : methods World Exc)
         (argv0 a1 a1' : string) (rest : list string) (w : World),
    String.prefix "/c" a1 = true ->
    String.prefix "/c" a1' = true ->
    last_char a1 = last_char a1' ->
    reply_to emulator (argv0 :: a1 :: rest) w = reply_to emulator (argv0 :: a1' :: rest) w
    /\ exists x,
         last_char a1 = Done (String x EmptyString)
         /\ reply_to emulator [argv0; a1; "show"; "all"]%string w
            = match emulator (CtrlInfo (String x EmptyString)) w with
              | (w', Returns text) => (w', Returns (mkReply text EmptyString 0))
              | (w', Raises e) => (w', Raises (InMethod e))
              end.
Proof.
  intros World Exc emulator argv0 a1 a1' rest w Hp Hp' Hl. split.
  - destruct (prefix_c_inv a1 Hp) as (r & Hr).
    destruct (prefix_c_inv a1' Hp') as (r' & Hr').
    destruct rest as [|a2 [|a3 [|a4 [|a5 [|a6 rest]]]]]; cbn [reply_to usage].
    + subst. reflexivity.
    + subst. reflexivity.
    + rewrite Hp, Hp'. unfold with_controller. rewrite Hl. reflexivity.
    + rewrite Hp, Hp'. unfold with_controller. rewrite Hl. reflexivity.
    + rewrite Hp, Hp'. unfold with_controller. rewrite Hl. reflexivity.
    + reflexivity.
  - destruct (prefix_c_last a1 Hp) as (x & Hx). exists x. split; [exact Hx|].
    cbn [reply_to]. rewrite Hp. cbn. unfold with_controller. rewrite Hx. reflexivity.
Qed.

Lemma controller_is_last_character_witness :
  String.prefix "/c" "/c10" = true
  /\ String.prefix "/c" "/c0" = true
  /\ last_char "/c10" = last_char "/c0"
  /\ reply_to example_methods ["storcli64"; "/c10"; "show"; "alarm"]%string tt
     = reply_to example_methods ["storcli64"; "/c0"; "show"; "alarm"]%string tt.
Proof.
  split; [reflexivity|]. split; [reflexivity|]. split; [reflexivity|].
  exact (proj1 (controller_is_last_character unit exn example_methods
                  "storcli64" "/c10" "/c0"
                  ["show"; "alarm"]%string tt eq_refl eq_refl eq_refl)).
Defined.

(** X8. A text that is not JSON is answered like the last JSON text read
    before it: the loop does what it would do had that text been received
    again. When the first text received is not JSON the loop ends with
    [UnboundLocalError] and sends nothing. *)
Theorem bad_json_repeats_last_command :
  forall (World Exc : Type) (emulator : methods World Exc)
         (incoming : list received_data) (last : option (list string)) (w : World),
    listen emulator incoming last w = listen emulator (resend incoming last) last w
    /\ (forall argv, Forall (fun d => d <> BadJSON) (resend incoming (Some argv)))
    /\ _listen_cmds emulator (BadJSON :: incoming) w
       = (w, ([], Some (InLoop UnboundLocalError))).
Proof.
  intros World Exc emulator incoming last w. split; [|split].
  - revert last w. induction incoming as [|d rest IH]; intros last w; [reflexivity|].
    destruct d as [|argv]; cbn [resend].
    + destruct last as [argv|]; [|reflexivity].
      cbn [listen]. destruct (reply_to emulator argv w) as [w' [r|e]]; [|reflexivity].
      rewrite IH. reflexivity.
    + cbn [listen]. destruct (reply_to emulator argv w) as [w' [r|e]]; [|reflexivity].
      rewrite IH. reflexivity.
  - induction incoming as [|d rest IH]; intros argv; cbn; [constructor|].
    destruct d; constructor; try discriminate; apply IH.
  - reflexivity.
Qed.

(** ** Tables *)

Lemma dict_set_fresh {V : Type} (d : dict V) (k : string) (v : V) :
  ~ In k (keys d) -> dict_set d k v = d ++ [(k, v)].
Proof.
  induction d as [|[k' v'] d IH]; cbn; intros Hk; [reflexivity|].
  destruct (String.eqb_spec k' k) as [->|Hne]; [tauto|].
  rewrite IH by tauto. reflexivity.
Qed.

Lemma dict_get_widths (w : string -> nat) (hs : list string) (k : string) :
  In k hs -> dict_get (map (fun k' => (k', w k')) hs) k = Some (w k).
Proof.
  induction hs as [|h hs IH]; cbn; [contradiction|].
  intros Hin. destruct (String.eqb_spec h k) as [->|Hne]; [reflexivity|].
  destruct Hin as [->|Hin]; [contradiction|]. apply IH, Hin.
Qed.

Lemma dict_set_widths (w : string -> nat) (hs : list string) (k : string) (v : nat) :
  NoDup hs -> In k hs ->
  dict_set (map (fun k' => (k', w k')) hs) k v
  = map (fun k' => (k', if String.eqb k' k then v else w k')) hs.
Proof.
  induction hs as [|h hs IH]; intros Hnd Hin; [contradiction|].
  inversion Hnd as [|? ? Hnot Hnd']; subst. cbn.
  destruct (String.eqb_spec h k) as [->|Hne].
  - f_equal. apply map_ext_in. intros a Ha.
    destruct (String.eqb_spec a k) as [->|]; [contradiction|reflexivity].
  - f_equal. destruct Hin as [->|Hin]; [contradiction|]. apply IH; assumption.
Qed.

Lemma initial_header_lengths_nodup (hs : list string) :
  NoDup hs ->
  initial_header_lengths hs = map (fun k => (k, String.length k)) hs.
Proof.
  unfold initial_header_lengths.
  assert (Hgen : forall acc : dict nat,
             NoDup (keys acc ++ hs) ->
             fold_left (fun d key => dict_set d key (String.length key)) hs acc
             = acc ++ map (fun k => (k, String.length k)) hs).
  { induction hs as [|h hs IH]; intros acc Hnd; cbn.
    - rewrite app_nil_r. reflexivity.
    - rewrite dict_set_fresh.
      + rewrite IH.
        * rewrite <- app_assoc. reflexivity.
        * unfold keys in *. rewrite map_app, <- app_assoc. exact Hnd.
      + apply NoDup_remove_2 in Hnd. intros Hin. apply Hnd.
        apply in_or_app. left. exact Hin. }
  intros Hnd. apply (Hgen []). exact Hnd.
Qed.

Lemma cell_len_text (row : dict cell) (k : string) (v : cell) :
  dict_get row k = Some v ->
  cell_text row k = py_str v
  /\ (if Nat.leb (String.length k) (String.length (py_str v))
      then String.length (py_str v) else String.length k) = cell_len row k.
Proof.
  intros Hv. unfold cell_len, cell_text. rewrite Hv. split; [reflexivity|].
  destruct (Nat.leb_spec (String.length k) (String.length (py_str v))); lia.
Qed.

(** One row: either every header has its cell, the row text is [row_text]
    and the widths grow to the cells of the row, or the first header without
    a cell raises [KeyError]. *)
Lemma format_row_cases (hs : list string) (row : dict cell) :
  NoDup hs ->
  forall (hs' : list string) (acc : string) (w : string -> nat),
    incl hs' hs ->
    (Forall (fun k => exists v, dict_get row k = Some v) hs'
     /\ exists w',
          format_row row hs' acc (map (fun k => (k, w k)) hs)
          = (map (fun k => (k, w' k)) hs, Ok (acc ++ row_text hs' row)%string)
          /\ forall k, w' k = if existsb (String.eqb k) hs'
                              then Nat.max (w k) (cell_len row k) else w k)
    \/ (exists hs1 k hs2,
          hs' = hs1 ++ k :: hs2
          /\ Forall (fun h => exists v, dict_get row h = Some v) hs1
          /\ dict_get row k = None
          /\ snd (format_row row hs' acc (map (fun k => (k, w k)) hs))
             = Raise (KeyError k)).
Proof.
  intros Hnd. induction hs' as [|h rest IH]; intros acc w Hincl.
  - left. split; [constructor|]. exists w. split.
    + cbn. rewrite append_nil_r. reflexivity.
    + intros k. reflexivity.
  - assert (Hh : In h hs) by (apply Hincl; left; reflexivity).
    assert (Hrest : incl rest hs) by (intros x Hx; apply Hincl; right; exact Hx).
    destruct (dict_get row h) as [v|] eqn:Hv.
    + destruct (cell_len_text row h v Hv) as (Htext & Hlen).
      set (w1 := fun k => if String.eqb k h
                          then Nat.max (w k) (cell_len row k) else w k).
      assert (Hstep : forall (A : Type) (cont : Py (dict nat) A),
                 bind (if Nat.ltb (w h) (cell_len row h)
                       then modify (fun d => dict_set d h (cell_len row h))
                       else ret tt) (fun _ => cont)
                      (map (fun k => (k, w k)) hs)
                 = cont (map (fun k => (k, w1 k)) hs)).
      { intros A cont. unfold bind, modify, ret.
        destruct (Nat.ltb_spec (w h) (cell_len row h)) as [Hlt|Hge].
        - rewrite dict_set_widths by assumption. f_equal.
          apply map_ext_in. intros a _. unfold w1.
          destruct (String.eqb_spec a h) as [->|]; [f_equal; lia|reflexivity].
        - f_equal. apply map_ext_in. intros a _. unfold w1.
          destruct (String.eqb_spec a h) as [->|]; [f_equal; lia|reflexivity]. }
      assert (Hrun : forall acc0,
                 format_row row (h :: rest) acc0 (map (fun k => (k, w k)) hs)
                 = format_row row rest
                     (acc0 ++ ljust (cell_text row h) (cell_len row h + 1))
                     (map (fun k => (k, w1 k)) hs)).
      { intros acc0. cbn [format_row]. unfold bind at 1, lift at 1, getitem at 1.
        rewrite Hv. rewrite Hlen. unfold bind at 1, get_self at 1.
        unfold bind at 1, lift at 1, getitem at 1.
        rewrite dict_get_widths by assumption.
        rewrite Hstep. rewrite Htext. reflexivity. }
      destruct (IH (acc ++ ljust (cell_text row h) (cell_len row h + 1))%string w1 Hrest)
        as [(Hall & w' & Hres & Hw')|(hs1 & k & hs2 & Hsplit & Hpre & Hk & Hres)].
      * left. split; [constructor; eauto|]. exists w'. split.
        -- rewrite Hrun, Hres. cbn [row_text fold_right].
           rewrite append_assoc. reflexivity.
        -- intros k. rewrite Hw'. unfold w1. cbn [existsb].
           destruct (String.eqb_spec k h) as [->|Hne]; cbn [orb].
           ++ destruct (existsb (String.eqb h) rest); lia.
           ++ reflexivity.
      * right. exists (h :: hs1), k, hs2. split; [rewrite Hsplit; reflexivity|].
        split; [constructor; eauto|]. split; [exact Hk|].
        rewrite Hrun. exact Hres.
    + right. exists [], h, rest. split; [reflexivity|]. split; [constructor|].
      split; [exact Hv|].
      cbn [format_row]. unfold bind, lift, getitem. rewrite Hv. reflexivity.
Qed.

Lemma col_width_cons (row : dict cell) (rows : list (dict cell)) (k : string) (a : nat) :
  fold_left (fun w r => Nat.max w (cell_len r k)) (row :: rows) a
  = fold_left (fun w r => Nat.max w (cell_len r k)) rows (Nat.max a (cell_len row k)).
Proof. reflexivity. Qed.

Lemma format_rows_cases (hs : list string) :
  NoDup hs ->
  forall (rows : list (dict cell)) (w : string -> nat),
    (rows_complete hs rows
     /\ exists w',
          format_rows hs rows (map (fun k => (k, w k)) hs)
          = (map (fun k => (k, w' k)) hs, Ok (map (row_text hs) rows))
          /\ forall k, In k hs ->
                       w' k = fold_left (fun a r => Nat.max a (cell_len r k)) rows (w k))
    \/ (exists before row after hs1 k hs2,
          rows = before ++ row :: after
          /\ rows_complete hs before
          /\ hs = hs1 ++ k :: hs2
          /\ Forall (fun h => exists v, dict_get row h = Some v) hs1
          /\ dict_get row k = None
          /\ snd (format_rows hs rows (map (fun k => (k, w k)) hs))
             = Raise (KeyError k)).
Proof.
  intros Hnd. induction rows as [|row rows IH]; intros w.
  - left. split; [constructor|]. exists w. split; [reflexivity|]. intros; reflexivity.
  - destruct (format_row_cases hs row Hnd hs EmptyString w (incl_refl hs))
      as [(Hall & w1 & Hres & Hw1)|(hs1 & k & hs2 & Hsplit & Hpre & Hk & Hres)].
    + destruct (IH w1) as [(Hc & w' & Hres' & Hw')
                          |(before & row' & after & hs1 & k & hs2
                            & Hrows & Hbefore & Hsplit & Hpre & Hk & Hres')].
      * left. split; [constructor; assumption|]. exists w'. split.
        -- cbn [format_rows]. unfold bind at 1. rewrite Hres.
           unfold bind at 1. rewrite Hres'. reflexivity.
        -- intros k Hk. rewrite Hw' by exact Hk. rewrite Hw1.
           assert (He : existsb (String.eqb k) hs = true).
           { apply existsb_exists. exists k. split; [exact Hk|apply String.eqb_refl]. }
           rewrite He. reflexivity.
      * right. exists (row :: before), row', after, hs1, k, hs2.
        split; [rewrite Hrows; reflexivity|].
        split; [constructor; assumption|].
        split; [exact Hsplit|]. split; [exact Hpre|]. split; [exact Hk|].
        cbn [format_rows]. unfold bind at 1. rewrite Hres.
        unfold bind at 1.
        destruct (format_rows hs rows (map (fun k0 => (k0, w1 k0)) hs)) as [hl [a|e]];
          cbn [snd] in *; [discriminate|exact Hres'].
    + right. exists [], row, rows, hs1, k, hs2.
      split; [reflexivity|]. split; [constructor|].
      split; [exact Hsplit|]. split; [exact Hpre|]. split; [exact Hk|].
      cbn [format_rows]. unfold bind at 1.
      destruct (format_row row hs EmptyString (map (fun k0 => (k0, w k0)) hs))
        as [hl [a|e]]; cbn [snd] in *; [discriminate|].
      injection Hres as ->. reflexivity.
Qed.

(** A header without a cell in some row makes the rows incomplete. *)
Lemma missing_cell_incomplete (hs hs1 hs2 : list string) (k : string)
  (rows before after : list (dict cell)) (row : dict cell) :
  rows = before ++ row :: after ->
  hs = hs1 ++ k :: hs2 ->
  dict_get row k = None ->
  ~ rows_complete hs rows.
Proof.
  intros -> -> Hk Hc. unfold rows_complete in Hc.
  rewrite Forall_forall in Hc.
  specialize (Hc row (in_elt row before after)).
  rewrite Forall_forall in Hc.
  destruct (Hc k (in_elt k hs1 hs2)) as (v & Hv).
  congruence.
Qed.

Lemma format_as_table_complete (hs : list string) (rows : list (dict cell)) :
  NoDup hs ->
  rows_complete hs rows ->
  _format_as_table hs rows = Ok (table_text hs rows).
Proof.
  intros Hnd Hc. unfold _format_as_table.
  rewrite (initial_header_lengths_nodup hs Hnd).
  destruct (format_rows_cases hs Hnd rows String.length)
    as [(_ & w' & Hres & Hw')
       |(before & row & after & hs1 & k & hs2 & Hrows & _ & Hsplit & _ & Hk & _)].
  - rewrite Hres. unfold table_text, header_text, header_line.
    rewrite map_map. cbn [fst snd].
    assert (He : map (fun x => ljust x (w' x)) hs
                 = map (fun k => ljust k (col_width rows k)) hs).
    { apply map_ext_in. intros k Hk. rewrite (Hw' k Hk). reflexivity. }
    rewrite He. reflexivity.
  - exfalso. exact (missing_cell_incomplete hs hs1 hs2 k rows before after row
                      Hrows Hsplit Hk Hc).
Qed.

Theorem format_as_table_layout :
  forall (headers : list string) (table_options : list (dict cell)),
    NoDup headers ->
    rows_complete headers table_options ->
    _format_as_table headers table_options = Ok (table_text headers table_options).
Proof.
  intros hs rows Hnd Hc. apply format_as_table_complete; assumption.
Qed.

(** X10. For headers without repetition, [_format_as_table] returns a table
    exactly when every row has a cell for every header. Otherwise it raises
    [KeyError] for the first header, in the order of the headers, that has no
    cell in the first row that is not complete. *)
Theorem format_as_table_missing_key :
  forall (headers : list string) (table_options : list (dict cell)),
    NoDup headers ->
    ((exists text, _format_as_table headers table_options = Ok text)
     <-> rows_complete headers table_options)
    /\ (~ rows_complete headers table_options ->
        exists before table_row after hs1 k hs2,
          table_options = before ++ table_row :: after
          /\ rows_complete headers before
          /\ headers = hs1 ++ k :: hs2
          /\ Forall (fun h => exists v, dict_get table_row h = Some v) hs1
          /\ dict_get table_row k = None
          /\ _format_as_table headers table_options = Raise (KeyError k)).
Proof.
  intros hs rows Hnd.
  assert (Hfail : ~ rows_complete hs rows ->
                  exists before row after hs1 k hs2,
                    rows = before ++ row :: after
                    /\ rows_complete hs before
                    /\ hs = hs1 ++ k :: hs2
                    /\ Forall (fun h => exists v, dict_get row h = Some v) hs1
                    /\ dict_get row k = None
                    /\ _format_as_table hs rows = Raise (KeyError k)).
  { intros Hnc. unfold _format_as_table.
    rewrite (initial_header_lengths_nodup hs Hnd).
    destruct (format_rows_cases hs Hnd rows String.length)
      as [(Hc & _)|(before & row & after & hs1 & k & hs2
                    & Hrows & Hbefore & Hsplit & Hpre & Hk & Hres)]; [contradiction|].
    exists before, row, after, hs1, k, hs2.
    repeat (split; [assumption|]).
    destruct (format_rows hs rows _) as [hl [a|e]]; cbn [snd] in Hres;
      [discriminate|]. injection Hres as ->. reflexivity. }
  split; [split|exact Hfail].
  - intros (text & Ht).
    destruct (format_rows_cases hs Hnd rows String.length)
      as [(Hc & _)|(before & row & after & hs1 & k & hs2 & Hrows & _ & Hsplit & _ & Hk & _)];
      [exact Hc|].
    destruct (Hfail (missing_cell_incomplete hs hs1 hs2 k rows before after row
                       Hrows Hsplit Hk))
      as (? & ? & ? & ? & k' & ? & _ & _ & _ & _ & _ & Hr). congruence.
  - intros Hc. eexists. apply format_as_table_complete; assumption.
Qed.

Lemma length_row_text (hs : list string) (row : dict cell) :
  String.length (row_text hs row)
  = list_sum (map (fun k => (cell_len row k + 1)%nat) hs).
Proof.
  induction hs as [|h hs IH]; cbn [row_text fold_right map list_sum]; [reflexivity|].
  rewrite length_append, length_ljust. fold (row_text hs row). rewrite IH.
  unfold cell_len, list_sum. lia.
Qed.

Lemma length_join_blank (l : list string) :
  l <> [] ->
  (String.length (join " " l) + 1)%nat
  = list_sum (map (fun s => (String.length s + 1)%nat) l).
Proof.
  induction l as [|x l IH]; intros Hne; [contradiction|].
  destruct l as [|y l'].
  - cbn. lia.
  - rewrite join_cons by discriminate.
    rewrite !length_append.
    assert (IH' := IH ltac:(discriminate)).
    unfold list_sum in *. cbn [map fold_right String.length] in *. lia.
Qed.

Lemma fold_max_ge_init (rows : list (dict cell)) (k : string) (a : nat) :
  (a <= fold_left (fun w r => Nat.max w (cell_len r k)) rows a)%nat.
Proof.
  revert a. induction rows as [|r rows IH]; intros a; cbn; [lia|].
  specialize (IH (Nat.max a (cell_len r k))). lia.
Qed.

Lemma fold_max_ge_cell (rows : list (dict cell)) (k : string) (a : nat) (row : dict cell) :
  In row rows ->
  (cell_len row k <= fold_left (fun w r => Nat.max w (cell_len r k)) rows a)%nat.
Proof.
  revert a. induction rows as [|r rows IH]; intros a Hin; [contradiction|]. cbn.
  destruct Hin as [->|Hin].
  - pose proof (fold_max_ge_init rows k (Nat.max a (cell_len row k))). lia.
  - apply IH, Hin.
Qed.

Lemma list_sum_pointwise (f g : string -> nat) (hs : list string) :
  (forall k, In k hs -> (f k <= g k)%nat) ->
  (list_sum (map f hs) <= list_sum (map g hs))%nat
  /\ (list_sum (map f hs) = list_sum (map g hs) <-> Forall (fun k => f k = g k) hs).
Proof.
  induction hs as [|h hs IH]; intros Hle.
  - split; [reflexivity|]. split; [constructor|reflexivity].
  - destruct IH as (IHle & IHeq); [intros k Hk; apply Hle; right; exact Hk|].
    pose proof (Hle h (or_introl eq_refl)) as Hh.
    change (list_sum (map f (h :: hs))) with (f h + list_sum (map f hs))%nat.
    change (list_sum (map g (h :: hs))) with (g h + list_sum (map g hs))%nat.
    split; [lia|]. split.
    + intros Heq. constructor; [lia|]. apply IHeq. lia.
    + intros Hall. inversion Hall as [|? ? Hfg Hrest]; subst.
      apply IHeq in Hrest. lia.
Qed.

Lemma Forall2_map_right {A B : Type} (P : A -> B -> Prop) (f : A -> B) (l : list A) :
  Forall (fun x => P x (f x)) l -> Forall2 P l (map f l).
Proof.
  induction 1; cbn; constructor; assumption.
Qed.

(** X11. In the table [_format_as_table] builds, no row is longer than the
    header line with a blank after it, and a row has that length exactly
    when each of its cells is as wide as the widest cell of its column: a
    row is padded to the widths of its own cells, not to the widths of the
    columns, so a narrower cell shifts what follows it off its column. *)
Theorem row_aligned_iff_cells_widest :
  forall (headers : list string) (table_options : list (dict cell)),
    NoDup headers ->
    headers <> [] ->
    rows_complete headers table_options ->
    exists header_lengths value_rows,
      format_rows headers table_options (initial_header_lengths headers)
        = (header_lengths, Ok value_rows)
      /\ Forall2
           (fun table_row row_str =>
              (String.length row_str <= String.length (header_line header_lengths) + 1)%nat
              /\ (String.length row_str
                  = (String.length (header_line header_lengths) + 1)%nat
                  <-> Forall (fun col_key =>
                                cell_len table_row col_key
                                = col_width table_options col_key) headers))
           table_options value_rows.
Proof.
  intros hs rows Hnd Hne Hc.
  rewrite (initial_header_lengths_nodup hs Hnd).
  destruct (format_rows_cases hs Hnd rows String.length)
    as [(_ & w' & Hres & Hw')
       |(before & row & after & hs1 & k & hs2 & Hrows & _ & Hsplit & _ & Hk & _)];
    [|exfalso; exact (missing_cell_incomplete hs hs1 hs2 k rows before after row
                        Hrows Hsplit Hk Hc)].
  do 2 eexists. split; [exact Hres|].
  assert (Hh : (String.length (header_line (map (fun k => (k, w' k)) hs)) + 1)%nat
               = list_sum (map (fun k => (col_width rows k + 1)%nat) hs)).
  { unfold header_line. rewrite length_join_blank.
    - rewrite !map_map. cbn [fst snd]. f_equal. apply map_ext_in. intros k Hk.
      rewrite length_ljust, (Hw' k Hk). fold (col_width rows k).
      pose proof (fold_max_ge_init rows k (String.length k)) as Hge.
      unfold col_width. lia.
    - destruct hs; [contradiction|discriminate]. }
  rewrite Hh.
  assert (Hall : Forall (fun row =>
             (String.length (row_text hs row)
              <= list_sum (map (fun k => (col_width rows k + 1)%nat) hs))%nat
             /\ (String.length (row_text hs row)
                 = list_sum (map (fun k => (col_width rows k + 1)%nat) hs)
                 <-> Forall (fun k => cell_len row k = col_width rows k) hs)) rows).
  { apply Forall_forall. intros row Hrow. rewrite length_row_text.
    destruct (list_sum_pointwise (fun k => (cell_len row k + 1)%nat)
                (fun k => (col_width rows k + 1)%nat) hs) as (Hle & Heq).
    - intros k _. pose proof (fold_max_ge_cell rows k (String.length k) row Hrow).
      unfold col_width. lia.
    - split; [exact Hle|]. rewrite Heq. split; intros Hf;
        (eapply Forall_impl; [|exact Hf]); cbn; intros; lia. }
  apply Forall2_map_right. exact Hall.
Qed.

(** ** The state of a virtual drive *)

Lemma dict_get_set_same {V : Type} (d : dict V) (k : string) (v : V) :
  dict_get (dict_set d k v) k = Some v.
Proof.
  induction d as [|[k' v'] d IH]; cbn.
  - rewrite String.eqb_refl. reflexivity.
  - destruct (String.eqb_spec k' k) as [->|Hne]; cbn.
    + rewrite String.eqb_refl. reflexivity.
    + destruct (String.eqb_spec k' k); [contradiction|]. exact IH.
Qed.

Lemma dict_get_set_other {V : Type} (d : dict V) (k k' : string) (v : V) :
  k <> k' -> dict_get (dict_set d k v) k' = dict_get d k'.
Proof.
  intros Hne. induction d as [|[k0 v0] d IH]; cbn.
  - destruct (String.eqb_spec k k'); [contradiction|reflexivity].
  - destruct (String.eqb_spec k0 k) as [->|Hk]; cbn.
    + destruct (String.eqb_spec k k'); [contradiction|reflexivity].
    + destruct (String.eqb_spec k0 k'); [reflexivity|exact IH].
Qed.

Lemma dict_set_same {V : Type} (d : dict V) (k : string) (v : V) :
  dict_get d k = Some v -> dict_set d k v = d.
Proof.
  induction d as [|[k' v'] d IH]; cbn; [discriminate|].
  destruct (String.eqb_spec k' k) as [->|Hne].
  - intros [= ->]. reflexivity.
  - intros Hg. rewrite IH by exact Hg. reflexivity.
Qed.

Lemma dict_set_set {V : Type} (d : dict V) (k : string) (v v' : V) :
  dict_set (dict_set d k v) k v' = dict_set d k v'.
Proof.
  induction d as [|[k0 v0] d IH]; cbn.
  - rewrite String.eqb_refl. reflexivity.
  - destruct (String.eqb_spec k0 k) as [->|Hne]; cbn.
    + rewrite String.eqb_refl. reflexivity.
    + destruct (String.eqb_spec k0 k); [contradiction|]. rewrite IH. reflexivity.
Qed.

Lemma keys_dict_set {V : Type} (d : dict V) (k : string) (v v0 : V) :
  dict_get d k = Some v0 -> keys (dict_set d k v) = keys d.
Proof.
  induction d as [|[k' v'] d IH]; cbn; [discriminate|].
  destruct (String.eqb_spec k' k) as [->|Hne]; cbn.
  - reflexivity.
  - intros Hg. f_equal. apply IH, Hg.
Qed.

Lemma dict_get_none_keys {V : Type} (d : dict V) (k : string) :
  dict_get d k = None <-> ~ In k (keys d).
Proof.
  split.
  - intros Hn Hin. destruct (in_keys_dict_get d k Hin) as (v & Hv). congruence.
  - intros Hnin. destruct (dict_get d k) as [v|] eqn:Hv; [|reflexivity].
    exfalso. apply Hnin. eapply dict_get_in_keys, Hv.
Qed.

(** The evaluator reads the store and never writes it. *)
Lemma for_props_pure (s_conf : dict (dict Z)) (cs : dict Z) (status optimal : string)
  (props : list string) (st st0 : StorCLIEmulator) :
  for_props s_conf cs status optimal props st
  = (st, snd (for_props s_conf cs status optimal props st0)).
Proof.
  induction props as [|p rest IH]; [reflexivity|].
  cbn [for_props]. unfold bind, lift.
  destruct (getitem cs p); [|reflexivity].
  destruct (getitem s_conf status); [|reflexivity].
  destruct (getitem _ p); [|reflexivity].
  match goal with |- context [if ?b then _ else _] => destruct b end;
    [reflexivity|exact IH].
Qed.

Lemma for_statuses_pure (s_conf : dict (dict Z)) (cs : dict Z) (optimal : string)
  (statuses : list string) (st st0 : StorCLIEmulator) :
  for_statuses s_conf cs optimal statuses st
  = (st, snd (for_statuses s_conf cs optimal statuses st0)).
Proof.
  induction statuses as [|s rest IH]; [reflexivity|].
  cbn [for_statuses]. unfold bind.
  rewrite (for_props_pure s_conf cs s optimal (keys cs) st st0).
  rewrite (for_props_pure s_conf cs s optimal (keys cs) st0 st0).
  destruct (snd (for_props s_conf cs s optimal (keys cs) st0)) as [[x|]|e];
    [reflexivity|exact IH|reflexivity].
Qed.

Lemma get_state_from_config_frame (entry : string) (cs : dict Z) (optimal : string)
  (self : StorCLIEmulator) :
  fst (_get_state_from_config entry cs optimal self) = self.
Proof.
  unfold _get_state_from_config, bind, get_self, lift.
  destruct (getitem (stateConfig self) entry) as [s_conf|e]; [|reflexivity].
  rewrite (for_statuses_pure s_conf cs optimal (keys s_conf) self self).
  destruct (snd (for_statuses _ _ _ _ _)) as [[x|]|e]; reflexivity.
Qed.

(** On the row of the optimal status the inner loop only checks that the
    thresholds are there. *)
Lemma for_props_optimal_keys (sc sc' : dict (dict Z)) (cs : dict Z) (optimal : string)
  (row row' : dict Z) (props : list string) (st : StorCLIEmulator) :
  dict_get sc optimal = Some row ->
  dict_get sc' optimal = Some row' ->
  keys row = keys row' ->
  snd (for_props sc cs optimal optimal props st)
  = snd (for_props sc' cs optimal optimal props st).
Proof.
  intros Hr Hr' Hk. induction props as [|p rest IH]; [reflexivity|].
  cbn [for_props]. unfold bind, lift, getitem. rewrite Hr, Hr'.
  destruct (dict_get cs p); [|reflexivity].
  destruct (dict_get row p) as [t|] eqn:Ht.
  - destruct (dict_get row' p) as [t'|] eqn:Ht'.
    + rewrite String.eqb_refl, !andb_false_r. exact IH.
    + apply dict_get_none_keys in Ht'. rewrite <- Hk in Ht'.
      exfalso. apply Ht'. eapply dict_get_in_keys, Ht.
  - destruct (dict_get row' p) as [t'|] eqn:Ht'.
    + apply dict_get_none_keys in Ht. rewrite Hk in Ht.
      exfalso. apply Ht. eapply dict_get_in_keys, Ht'.
    + reflexivity.
Qed.

Lemma for_props_other_row (sc sc' : dict (dict Z)) (cs : dict Z)
  (status optimal : string) (props : list string) (st : StorCLIEmulator) :
  dict_get sc status = dict_get sc' status ->
  snd (for_props sc cs status optimal props st)
  = snd (for_props sc' cs status optimal props st).
Proof.
  intros Hr. induction props as [|p rest IH]; [reflexivity|].
  cbn [for_props]. unfold bind, lift, getitem. rewrite Hr.
  destruct (dict_get cs p); [|reflexivity].
  destruct (dict_get sc' status); [|reflexivity].
  destruct (dict_get _ p); [|reflexivity].
  match goal with |- context [if ?b then _ else _] => destruct b end;
    [reflexivity|exact IH].
Qed.

(** Replacing the row of the optimal status by one with the same keys does
    not change what the evaluator returns. *)
Lemma for_statuses_optimal_row (sc : dict (dict Z)) (cs : dict Z) (optimal : string)
  (row row' : dict Z) (statuses : list string) (st : StorCLIEmulator) :
  dict_get sc optimal = Some row ->
  keys row' = keys row ->
  snd (for_statuses (dict_set sc optimal row') cs optimal statuses st)
  = snd (for_statuses sc cs optimal statuses st).
Proof.
  intros Hr Hk. induction statuses as [|s rest IH]; [reflexivity|].
  cbn [for_statuses]. unfold bind.
  rewrite (for_props_pure (dict_set sc optimal row') cs s optimal (keys cs) st st).
  rewrite (for_props_pure sc cs s optimal (keys cs) st st).
  assert (He : snd (for_props (dict_set sc optimal row') cs s optimal (keys cs) st)
               = snd (for_props sc cs s optimal (keys cs) st)).
  { destruct (String.eqb_spec s optimal) as [->|Hne].
    - eapply for_props_optimal_keys; [apply dict_get_set_same|exact Hr|exact Hk].
    - apply for_props_other_row. apply dict_get_set_other. congruence. }
  rewrite He.
  destruct (snd (for_props sc cs s optimal (keys cs) st)) as [[x|]|e];
    [reflexivity|exact IH|reflexivity].
Qed.

Lemma dict_add_keys (d d' : dict Z) (k : string) (x : Z) :
  dict_add d k x = Ok d' -> keys d' = keys d.
Proof.
  unfold dict_add, getitem. destruct (dict_get d k) as [cur|] eqn:Hc; [|discriminate].
  intros [= <-]. eapply keys_dict_set, Hc.
Qed.

Lemma count_pd_errors_keys (pds : list p_drive) :
  forall r r' : dict Z, count_pd_errors r pds = Ok r' -> keys r' = keys r.
Proof.
  induction pds as [|p rest IH]; intros r r'; cbn [count_pd_errors].
  - intros [= <-]. reflexivity.
  - destruct (dict_add r _ _) as [s1|] eqn:H1; [|discriminate].
    destruct (dict_add s1 _ _) as [s2|] eqn:H2; [|discriminate].
    apply dict_add_keys in H1. apply dict_add_keys in H2.
    destruct (String.eqb (pd_State p) "Offln").
    + destruct (dict_add s2 _ _) as [s3|] eqn:H3; [|discriminate].
      apply dict_add_keys in H3. intros Hc. rewrite (IH _ _ Hc). congruence.
    + intros Hc. rewrite (IH _ _ Hc). congruence.
Qed.

Lemma count_pd_errors_app (pds1 pds2 : list p_drive) :
  forall r : dict Z,
    count_pd_errors r (pds1 ++ pds2)
    = match count_pd_errors r pds1 with
      | Ok r' => count_pd_errors r' pds2
      | Raise e => Raise e
      end.
Proof.
  induction pds1 as [|p rest IH]; intros r; cbn [count_pd_errors app]; [reflexivity|].
  destruct (dict_add r _ _) as [s1|]; [|reflexivity].
  destruct (dict_add s1 _ _) as [s2|]; [|reflexivity].
  destruct (String.eqb (pd_State p) "Offln"); [|apply IH].
  destruct (dict_add s2 _ _) as [s3|]; [apply IH|reflexivity].
Qed.

Section InPlace.

Variable self : StorCLIEmulator.
Variable vd_conf : dict (dict Z).
Variable row0 : dict Z.
Hypothesis Hconf : dict_get (stateConfig self) "virtualDrive" = Some vd_conf.
Hypothesis Hrow0 : dict_get vd_conf "Optl" = Some row0.

Lemma optl_row_self : optl_row self = (self, Ok row0).
Proof.
  unfold optl_row, bind, get_self, lift, getitem. rewrite Hconf, Hrow0. reflexivity.
Qed.

Lemma stateConfig_write_optl (r : dict Z) :
  stateConfig (write_optl r self)
  = dict_set (stateConfig self) "virtualDrive" (dict_set vd_conf "Optl" r).
Proof. unfold write_optl. rewrite Hconf. reflexivity. Qed.

Lemma optl_row_written (r : dict Z) :
  optl_row (write_optl r self) = (write_optl r self, Ok r).
Proof.
  unfold optl_row, bind, get_self, lift, getitem.
  rewrite stateConfig_write_optl, !dict_get_set_same. reflexivity.
Qed.

Lemma write_optl_twice (r1 r2 : dict Z) :
  write_optl r2 (write_optl r1 self) = write_optl r2 self.
Proof.
  unfold write_optl at 1. rewrite stateConfig_write_optl, dict_get_set_same.
  rewrite !dict_set_set. unfold write_optl. rewrite Hconf. reflexivity.
Qed.

Lemma write_optl_row0 : write_optl row0 self = self.
Proof.
  unfold write_optl. rewrite Hconf.
  rewrite (dict_set_same vd_conf "Optl" row0 Hrow0).
  rewrite (dict_set_same _ _ _ Hconf). destruct self. reflexivity.
Qed.

Lemma optl_add_written (r : dict Z) (k : string) (x : Z) :
  optl_add k x (write_optl r self)
  = match dict_add r k x with
    | Ok r' => (write_optl r' self, Ok tt)
    | Raise e => (write_optl r self, Raise e)
    end.
Proof.
  unfold optl_add, bind. rewrite optl_row_written.
  unfold lift, dict_add. destruct (getitem r k) as [cur|e]; [|reflexivity].
  unfold modify. rewrite write_optl_twice. reflexivity.
Qed.

(** The loop through the reference does to the Optl row of the
    configuration what the loop on a copy does to the copy. *)
Lemma count_pd_errors_in_place_written (pds : list p_drive) :
  forall r : dict Z,
    match count_pd_errors r pds with
    | Ok r' => count_pd_errors_in_place pds (write_optl r self) = (write_optl r' self, Ok tt)
    | Raise e => snd (count_pd_errors_in_place pds (write_optl r self)) = Raise e
    end.
Proof.
  induction pds as [|p rest IH]; intros r.
  - reflexivity.
  - cbn [count_pd_errors count_pd_errors_in_place]. unfold bind.
    rewrite optl_add_written.
    destruct (dict_add r "mediaErrorCount" (pd_mediaErrorCount p)) as [s1|e1];
      [|reflexivity].
    rewrite optl_add_written.
    destruct (dict_add s1 "otherErrorCount" (pd_otherErrorCount p)) as [s2|e2];
      [|reflexivity].
    destruct (String.eqb (pd_State p) "Offln").
    + rewrite optl_add_written.
      destruct (dict_add s2 "numPdOffline" 1) as [s3|e3]; [apply IH|reflexivity].
    + unfold ret. apply IH.
Qed.

Lemma evaluator_on_written (r cs : dict Z) :
  keys r = keys row0 ->
  _get_state_from_config "virtualDrive" cs "Optl" (write_optl r self)
  = (write_optl r self, snd (_get_state_from_config "virtualDrive" cs "Optl" self)).
Proof.
  intros Hk.
  rewrite (surjective_pairing (_get_state_from_config _ _ _ (write_optl r self))).
  rewrite get_state_from_config_frame. f_equal.
  unfold _get_state_from_config, bind, get_self, lift, getitem.
  rewrite stateConfig_write_optl, dict_get_set_same, Hconf.
  rewrite (for_statuses_pure _ cs "Optl" _ (write_optl r self) self).
  rewrite (for_statuses_pure vd_conf cs "Optl" _ self self).
  rewrite (keys_dict_set vd_conf "Optl" r row0 Hrow0).
  rewrite (for_statuses_optimal_row vd_conf cs "Optl" row0 r _ self Hrow0 Hk).
  destruct (snd (for_statuses vd_conf cs "Optl" (keys vd_conf) self)) as [[x|]|e];
    reflexivity.
Qed.

Lemma vd_state_of_copy_self (pds : list p_drive) :
  vd_state_of_copy pds self = (self, state_from self row0 pds).
Proof.
  unfold vd_state_of_copy, bind. rewrite optl_row_self. unfold lift, state_from.
  destruct (count_pd_errors row0 pds) as [v|e]; [|reflexivity].
  rewrite (surjective_pairing (_get_state_from_config _ _ _ self)) at 1.
  rewrite get_state_from_config_frame. reflexivity.
Qed.

Lemma vd_state_in_place_written (pds : list p_drive) (r : dict Z) :
  keys r = keys row0 ->
  match count_pd_errors r pds with
  | Ok r' =>
      vd_state_in_place pds (write_optl r self)
      = (write_optl r' self, state_from self r pds)
  | Raise e => snd (vd_state_in_place pds (write_optl r self)) = Raise e
  end.
Proof.
  intros Hk.
  pose proof (count_pd_errors_in_place_written pds r) as Hrun.
  unfold state_from.
  destruct (count_pd_errors r pds) as [r'|e] eqn:Hc.
  - unfold vd_state_in_place, bind. rewrite optl_row_written, Hrun, optl_row_written.
    apply evaluator_on_written.
    rewrite (count_pd_errors_keys pds r r' Hc). exact Hk.
  - unfold vd_state_in_place, bind. rewrite optl_row_written.
    destruct (count_pd_errors_in_place pds (write_optl r self)) as [s1 [u|e1]];
      cbn [snd] in Hrun; [discriminate|]. injection Hrun as ->. reflexivity.
Qed.

Lemma ctrl_info_states_written (vds : list (list p_drive)) :
  forall r : dict Z,
    keys r = keys row0 ->
    snd (_strcli_ctrl_info_vd_states vds (write_optl r self))
    = all_ok (map (fun pre => state_from self r (List.concat pre)) (prefixes vds))
    /\ (forall sts, snd (_strcli_ctrl_info_vd_states vds (write_optl r self)) = Ok sts ->
        exists r', count_pd_errors r (List.concat vds) = Ok r'
                   /\ fst (_strcli_ctrl_info_vd_states vds (write_optl r self))
                      = write_optl r' self).
Proof.
  induction vds as [|pds rest IH]; intros r Hk.
  - split; [reflexivity|]. intros sts _. exists r. split; reflexivity.
  - pose proof (vd_state_in_place_written pds r Hk) as Hone.
    assert (Hnil : state_from self r (List.concat [pds]) = state_from self r pds).
    { cbn. rewrite app_nil_r. reflexivity. }
    assert (Hrhs : all_ok (map (fun pre => state_from self r (List.concat pre))
                              (prefixes (pds :: rest)))
                   = match state_from self r pds with
                     | Ok st =>
                         match all_ok (map (fun pre => state_from self r
                                                         (List.concat (pds :: pre)))
                                           (prefixes rest)) with
                         | Ok sts => Ok (st :: sts)
                         | Raise e => Raise e
                         end
                     | Raise e => Raise e
                     end).
    { cbn [prefixes map all_ok]. rewrite Hnil, map_map. reflexivity. }
    rewrite Hrhs. clear Hrhs Hnil.
    cbn [_strcli_ctrl_info_vd_states]. unfold bind, ret.
    destruct (count_pd_errors r pds) as [r'|e] eqn:Hc.
    + rewrite Hone.
      assert (Hk' : keys r' = keys row0).
      { rewrite (count_pd_errors_keys pds r r' Hc). exact Hk. }
      destruct (IH r' Hk') as (IHs & IHf).
      assert (Hmap : map (fun pre => state_from self r (List.concat (pds :: pre)))
                         (prefixes rest)
                     = map (fun pre => state_from self r' (List.concat pre))
                           (prefixes rest)).
      { apply map_ext. intros pre. unfold state_from. cbn [List.concat].
        rewrite count_pd_errors_app, Hc. reflexivity. }
      rewrite Hmap, <- IHs.
      destruct (state_from self r pds) as [st|e]; [|split; [reflexivity|discriminate]].
      destruct (_strcli_ctrl_info_vd_states rest (write_optl r' self)) as [s2 [sts|e]];
        cbn [snd fst] in *.
      * split; [reflexivity|]. intros sts0 _.
        destruct (IHf sts eq_refl) as (r'' & Hc'' & Hf).
        exists r''. split; [|exact Hf].
        cbn [List.concat]. rewrite count_pd_errors_app, Hc. exact Hc''.
      * split; [reflexivity|discriminate].
    + assert (Hs : state_from self r pds = Raise e).
      { unfold state_from. rewrite Hc. reflexivity. }
      rewrite Hs.
      destruct (vd_state_in_place pds (write_optl r self)) as [s1 [st|e1]];
        cbn [snd] in Hone; [discriminate|].
      injection Hone as ->. cbn [snd]. split; [reflexivity|discriminate].
Qed.

End InPlace.

Lemma optl_row_frame (self : StorCLIEmulator) : fst (optl_row self) = self.
Proof.
  unfold optl_row, bind, get_self, lift.
  destruct (getitem (stateConfig self) "virtualDrive"); reflexivity.
Qed.

Lemma vd_state_of_copy_frame (pds : list p_drive) (self : StorCLIEmulator) :
  fst (vd_state_of_copy pds self) = self.
Proof.
  unfold vd_state_of_copy, bind.
  pose proof (optl_row_frame self) as Hf.
  destruct (optl_row self) as [s1 [row|e]]; cbn [fst] in Hf; subst s1; [|reflexivity].
  unfold lift. destruct (count_pd_errors row pds); [|reflexivity].
  apply get_state_from_config_frame.
Qed.

(** X12. [_get_virtual_drives] leaves the configuration as it was, and the
    state it gives a virtual drive depends on the physical drives of that
    drive only: the states of a list of drives are the states each drive
    gets on its own, up to the first exception. *)
Theorem get_virtual_drives_states_independent :
  forall (vd_details : list (list p_drive)) (self : StorCLIEmulator),
    _get_virtual_drives_states vd_details self
    = (self, all_ok (map (fun pds => snd (vd_state_of_copy pds self)) vd_details)).
Proof.
  induction vd_details as [|pds rest IH]; intros self; [reflexivity|].
  cbn [_get_virtual_drives_states map all_ok]. unfold bind, ret.
  pose proof (vd_state_of_copy_frame pds self) as Hf.
  destruct (vd_state_of_copy pds self) as [s1 [st|e]]; cbn [fst snd] in *; subst s1;
    [|reflexivity].
  rewrite IH. destruct (all_ok _); reflexivity.
Qed.

Lemma optl_row_cases (self : StorCLIEmulator) :
  (exists vd_conf row0,
      dict_get (stateConfig self) "virtualDrive" = Some vd_conf
      /\ dict_get vd_conf "Optl" = Some row0)
  \/ (exists e, optl_row self = (self, Raise e)).
Proof.
  unfold optl_row, bind, get_self, lift, getitem.
  destruct (dict_get (stateConfig self) "virtualDrive") as [vd_conf|] eqn:Hc;
    [|right; eexists; reflexivity].
  destruct (dict_get vd_conf "Optl") as [row0|] eqn:Hr;
    [|right; eexists; reflexivity].
  left. exists vd_conf, row0. split; [reflexivity|exact Hr].
Qed.

(** X13. [_strcli_ctrl_info] counts the errors of the physical drives into
    the Optl row of the configuration itself, not into a copy: the state it
    gives the n-th virtual drive is the state [_get_virtual_drives] would
    give one drive made of the physical drives of the first n virtual
    drives. *)
Theorem ctrl_info_states_accumulate :
  forall (vds : list (list p_drive)) (self : StorCLIEmulator),
    snd (_strcli_ctrl_info_vd_states vds self)
    = all_ok (map (fun pre => snd (vd_state_of_copy (List.concat pre) self))
                  (prefixes vds)).
Proof.
  intros vds self.
  destruct (optl_row_cases self) as [(vd_conf & row0 & Hc & Hr)|(e & He)].
  - destruct (ctrl_info_states_written self vd_conf row0 Hc Hr vds row0 eq_refl)
      as (Hs & _).
    rewrite (write_optl_row0 self vd_conf row0 Hc Hr) in Hs. rewrite Hs.
    f_equal. apply map_ext. intros pre.
    rewrite (vd_state_of_copy_self self vd_conf row0 Hc Hr). reflexivity.
  - destruct vds as [|pds rest]; [reflexivity|].
    cbn [_strcli_ctrl_info_vd_states prefixes map all_ok].
    unfold vd_state_of_copy, vd_state_in_place, bind. rewrite He. reflexivity.
Qed.

(** X3. What [_strcli_ctrl_info] counted stays in the configuration: when
    it returns, the Optl row holds the counters it had before plus the errors
    of all the physical drives listed, and the next call starts from there. *)
Theorem ctrl_info_counts_persist :
  forall (vds : list (list p_drive)) (self : StorCLIEmulator) (row0 : dict Z)
         (sts : list string),
    snd (optl_row self) = Ok row0 ->
    snd (_strcli_ctrl_info_vd_states vds self) = Ok sts ->
    snd (optl_row (fst (_strcli_ctrl_info_vd_states vds self)))
    = count_pd_errors row0 (List.concat vds).
Proof.
  intros vds self row0 sts Hrow Hrun.
  destruct (optl_row_cases self) as [(vd_conf & r0 & Hc & Hr)|(e & He)].
  - rewrite (optl_row_self self vd_conf r0 Hc Hr) in Hrow.
    cbn [snd] in Hrow. injection Hrow as ->.
    destruct (ctrl_info_states_written self vd_conf row0 Hc Hr vds row0 eq_refl)
      as (_ & Hf).
    rewrite (write_optl_row0 self vd_conf row0 Hc Hr) in Hf.
    destruct (Hf sts Hrun) as (r' & Hcount & Hfst).
    rewrite Hfst, (optl_row_written self vd_conf Hc), Hcount. reflexivity.
  - rewrite He in Hrow. discriminate.
Qed.

Lemma ctrl_info_counts_persist_witness :
  snd (optl_row example_vd_emulator)
    = Ok [("mediaErrorCount", 0); ("otherErrorCount", 0); ("numPdOffline", 0)]%string
  /\ snd (_strcli_ctrl_info_vd_states [[example_pd]; [example_pd]] example_vd_emulator)
     = Ok ["Optl"; "Dgrd"]%string
  /\ snd (optl_row (fst (_strcli_ctrl_info_vd_states [[example_pd]; [example_pd]]
                           example_vd_emulator)))
     = Ok [("mediaErrorCount", 4); ("otherErrorCount", 0); ("numPdOffline", 0)]%string.
Proof.
  split; [reflexivity|]. split; [reflexivity|].
  exact (ctrl_info_counts_persist [[example_pd]; [example_pd]] example_vd_emulator
           [("mediaErrorCount", 0); ("otherErrorCount", 0); ("numPdOffline", 0)]%string
           ["Optl"; "Dgrd"]%string eq_refl eq_refl).
Defined.

(** ** The theorems on tables, at a table of the emulator *)

Lemma vd_header_nodup : NoDup vd_header.
Proof.
  unfold vd_header.
  repeat (constructor; [cbn; intuition discriminate|]). constructor.
Qed.

Lemma example_vd_row_complete : rows_complete vd_header [example_vd_row].
Proof.
  repeat constructor; eexists; reflexivity.
Qed.

Lemma format_as_table_layout_witness :
  NoDup vd_header
  /\ rows_complete vd_header [example_vd_row]
  /\ _format_as_table vd_header [example_vd_row]
     = Ok (table_text vd_header [example_vd_row]).
Proof.
  split; [exact vd_header_nodup|]. split; [exact example_vd_row_complete|].
  exact (format_as_table_layout vd_header [example_vd_row]
           vd_header_nodup example_vd_row_complete).
Defined.

Lemma format_as_table_missing_key_witness :
  NoDup vd_header
  /\ ((exists text, _format_as_table vd_header [example_vd_row; short_vd_row] = Ok text)
      <-> rows_complete vd_header [example_vd_row; short_vd_row])
  /\ (~ rows_complete vd_header [example_vd_row; short_vd_row] ->
      exists before table_row after hs1 k hs2,
        [example_vd_row; short_vd_row] = before ++ table_row :: after
        /\ rows_complete vd_header before
        /\ vd_header = hs1 ++ k :: hs2
        /\ Forall (fun h => exists v, dict_get table_row h = Some v) hs1
        /\ dict_get table_row k = None
        /\ _format_as_table vd_header [example_vd_row; short_vd_row]
           = Raise (KeyError k)).
Proof.
  split; [exact vd_header_nodup|].
  exact (format_as_table_missing_key vd_header [example_vd_row; short_vd_row]
           vd_header_nodup).
Defined.

Lemma row_aligned_iff_cells_widest_witness :
  NoDup vd_header
  /\ vd_header <> []
  /\ rows_complete vd_header [example_vd_row]
  /\ exists header_lengths value_rows,
       format_rows vd_header [example_vd_row] (initial_header_lengths vd_header)
         = (header_lengths, Ok value_rows)
       /\ Forall2
            (fun table_row row_str =>
               (String.length row_str <= String.length (header_line header_lengths) + 1)%nat
               /\ (String.length row_str
                   = (String.length (header_line header_lengths) + 1)%nat
                   <-> Forall (fun col_key =>
                                 cell_len table_row col_key
                                 = col_width [example_vd_row] col_key) vd_header))
            [example_vd_row] value_rows.
Proof.
  assert (Hne : vd_header <> []) by discriminate.
  split; [exact vd_header_nodup|]. split; [exact Hne|].
  split; [exact example_vd_row_complete|].
  exact (row_aligned_iff_cells_widest vd_header [example_vd_row]
           vd_header_nodup Hne example_vd_row_complete).
Defined.
